(** * ResumeBuilder: form state, completion score, autosave and persistence

    A shallow embedding of [src/components/ResumeBuilder.tsx].  The React
    component keeps one [ResumeData] value in state, mutates it through
    small handlers ([setResumeData (prev => ...)]), derives a completion
    percentage from it, and persists it to [localStorage] two seconds after
    the last change.

    Conventions of the embedding:
    - a JS string is a [string] (code units below 256);
    - a JS object written with computed keys ([{...o, [field]: value}]) is a
      [gmap string string]: lookup of a missing key is [None] ([undefined]),
      the spread-and-set is map insertion; the order of the properties
      matters only where [JSON.stringify] writes them ([orderedMembers]);
    - a JS array is a [list]; array indices passed by callers are JS numbers,
      taken here as integers ([Z]);
    - a JS number that the component computes with is a binary64 [float];
    - a handler [h] that calls [setResumeData (prev => e)] is the function
      [prev |-> e]; the component-level effect (re-render, effects, timers,
      a render that throws) is in [Component]. *)

From Stdlib Require Import ZArith QArith Qround Floats Ascii String.
From stdpp Require Import base option list strings gmap sorting.

Open Scope string_scope.
Open Scope list_scope.
Open Scope Z_scope.

(** ** The JavaScript runtime, as far as the component uses it *)

Module JS.

(** ECMAScript WhiteSpace and LineTerminator code units below 256:
    TAB, LF, VT, FF, CR, SP, NBSP. *)
Definition isWhiteSpace (c : ascii) : bool :=
  let n := nat_of_ascii c in
  (Nat.eqb n 9 || Nat.eqb n 10 || Nat.eqb n 11 || Nat.eqb n 12
   || Nat.eqb n 13 || Nat.eqb n 32 || Nat.eqb n 160)%bool.

Fixpoint trimStart (s : string) : string :=
  match s with
  | EmptyString => EmptyString
  | String c s' => if isWhiteSpace c then trimStart s' else s
  end.

Fixpoint trimEnd (s : string) : string :=
  match s with
  | EmptyString => EmptyString
  | String c s' =>
      match trimEnd s' with
      | EmptyString => if isWhiteSpace c then EmptyString else String c EmptyString
      | t => String c t
      end
  end.

(** [String.prototype.trim]. *)
Definition trim (s : string) : string := trimEnd (trimStart s).

(** ToBoolean of a string: only the empty string is falsy. *)
Definition truthy (s : string) : bool :=
  match s with EmptyString => false | String _ _ => true end.

(** ToBoolean of a property read [o.k] whose value, when present, is a
    string: [undefined] is falsy. *)
Definition truthyProp (v : option string) : bool :=
  match v with None => false | Some s => truthy s end.

(** [a || []] on an optional array: an array (even an empty one) is truthy,
    [undefined] is not. *)
Definition orEmpty {A} (a : option (list A)) : list A :=
  match a with Some l => l | None => [] end.

Fixpoint mapFrom {A B} (f : A -> nat -> B) (i : nat) (l : list A) : list B :=
  match l with
  | [] => []
  | x :: l' => f x i :: mapFrom f (S i) l'
  end.

(** [Array.prototype.map] with the [(element, index)] callback. *)
Definition Array_map {A B} (f : A -> nat -> B) (l : list A) : list B :=
  mapFrom f 0 l.

Fixpoint filterFrom {A} (p : A -> nat -> bool) (i : nat) (l : list A) : list A :=
  match l with
  | [] => []
  | x :: l' => if p x i then x :: filterFrom p (S i) l' else filterFrom p (S i) l'
  end.

(** [Array.prototype.filter] with the [(element, index)] callback. *)
Definition Array_filter {A} (p : A -> nat -> bool) (l : list A) : list A :=
  filterFrom p 0 l.

(** [Array.prototype.includes] on an array of strings. *)
Definition includes (l : list string) (s : string) : bool :=
  bool_decide (s ∈ l).

(** [i === index] for an array position [i] and a caller-supplied number. *)
Definition strictEq (i : nat) (index : Z) : bool := Z.eqb (Z.of_nat i) index.

(** [Math.round]: the integer nearest to [x], ties towards +Infinity, that
    is floor (x + 1/2) computed exactly on the binary64 value.  [None]
    stands for NaN and the infinities, which [Math.round] returns as they
    are. *)
Definition Math_round (x : float) : option Z :=
  match Prim2SF x with
  | S754_zero _ => Some 0
  | S754_finite s m e =>
      let n := if s then Z.neg m else Z.pos m in
      Some (if 0 <=? e then n * 2 ^ e
            else (2 * n + 2 ^ (- e)) / 2 ^ (- e + 1))
  | S754_infinity _ | S754_nan => None
  end.

End JS.

(** ** Data model *)

(** Modelled from the spec: the type [ResumeData], which the component
    imports from [utils/pdfGenerator]; its declaration is not in
    [ResumeBuilder.tsx].  The specification gives its members (section 3)
    and the component's own reads and writes fix their shape: [personalInfo] and
    the entries of [experience], [education] and [projects] are objects of
    string-valued properties, [skills] is an array of strings, and
    [projects] is the one optional member (every read is guarded by
    [|| []]). *)
Record ResumeData := mkResumeData {
  personalInfo : gmap string string;
  experience : list (gmap string string);
  education : list (gmap string string);
  skills : list string;
  projects : option (list (gmap string string))
}.

(** An object literal with string-valued properties. *)
Definition obj (kvs : list (string * string)) : gmap string string :=
  list_to_map kvs.

(** The seven property names of [personalInfo]. *)
Definition personalFields : list string :=
  ["name"; "email"; "phone"; "location"; "summary"; "linkedin"; "github"].

(** The argument of [useState<ResumeData>] (lines 29-43). *)
Definition initialResumeData : ResumeData :=
  {| personalInfo := obj [("name", ""); ("email", ""); ("phone", "");
                          ("location", ""); ("summary", ""); ("linkedin", "");
                          ("github", "")];
     experience := [];
     education := [];
     skills := [];
     projects := Some [] |}.

Definition emptyExperience : gmap string string :=
  obj [("title", ""); ("company", ""); ("duration", ""); ("description", "")].

Definition emptyEducation : gmap string string :=
  obj [("degree", ""); ("institution", ""); ("year", ""); ("gpa", "")].

Definition emptyProject : gmap string string :=
  obj [("name", ""); ("description", ""); ("technologies", ""); ("link", "")].

(** ** Handlers: the updater passed to [setResumeData] *)

(** Lines 90-98. *)
Definition handlePersonalInfoChange (field value : string) (prev : ResumeData)
  : ResumeData :=
  {| personalInfo := <[field := value]> (personalInfo prev);
     experience := experience prev;
     education := education prev;
     skills := skills prev;
     projects := projects prev |}.

(** [i === index ? { ...entry, [field]: value } : entry]. *)
Definition setFieldAt (index : Z) (field value : string)
  (entry : gmap string string) (i : nat) : gmap string string :=
  if JS.strictEq i index then <[field := value]> entry else entry.

(** [(_, i) => i !== index]. *)
Definition notAt {A} (index : Z) (_ : A) (i : nat) : bool :=
  negb (JS.strictEq i index).

(** Lines 100-108. *)
Definition addExperience (prev : ResumeData) : ResumeData :=
  {| personalInfo := personalInfo prev;
     experience := experience prev ++ [emptyExperience];
     education := education prev;
     skills := skills prev;
     projects := projects prev |}.

(** Lines 110-117. *)
Definition updateExperience (index : Z) (field value : string) (prev : ResumeData)
  : ResumeData :=
  {| personalInfo := personalInfo prev;
     experience := JS.Array_map (setFieldAt index field value) (experience prev);
     education := education prev;
     skills := skills prev;
     projects := projects prev |}.

(** Lines 119-124. *)
Definition removeExperience (index : Z) (prev : ResumeData) : ResumeData :=
  {| personalInfo := personalInfo prev;
     experience := JS.Array_filter (notAt index) (experience prev);
     education := education prev;
     skills := skills prev;
     projects := projects prev |}.

(** Lines 126-134. *)
Definition addEducation (prev : ResumeData) : ResumeData :=
  {| personalInfo := personalInfo prev;
     experience := experience prev;
     education := education prev ++ [emptyEducation];
     skills := skills prev;
     projects := projects prev |}.

(** Lines 136-143. *)
Definition updateEducation (index : Z) (field value : string) (prev : ResumeData)
  : ResumeData :=
  {| personalInfo := personalInfo prev;
     experience := experience prev;
     education := JS.Array_map (setFieldAt index field value) (education prev);
     skills := skills prev;
     projects := projects prev |}.

(** Lines 145-150. *)
Definition removeEducation (index : Z) (prev : ResumeData) : ResumeData :=
  {| personalInfo := personalInfo prev;
     experience := experience prev;
     education := JS.Array_filter (notAt index) (education prev);
     skills := skills prev;
     projects := projects prev |}.

(** Lines 152-159.  The guard reads the [resumeData] of the render whose
    handler is running, the updater reads [prev]; [addSkill] is only called
    from the key-press and click handlers of the skill input, one call per
    event, and React re-renders between two such events, so both are the
    same record ([addSkillIn] keeps them apart). *)
Definition addSkillIn (resumeData : ResumeData) (skill : string) (prev : ResumeData)
  : ResumeData :=
  if (JS.truthy (JS.trim skill) && negb (JS.includes (skills resumeData) (JS.trim skill)))%bool
  then {| personalInfo := personalInfo prev;
          experience := experience prev;
          education := education prev;
          skills := skills prev ++ [JS.trim skill];
          projects := projects prev |}
  else prev.

Definition addSkill (skill : string) (resumeData : ResumeData) : ResumeData :=
  addSkillIn resumeData skill resumeData.

(** Lines 161-166. *)
Definition removeSkill (index : Z) (prev : ResumeData) : ResumeData :=
  {| personalInfo := personalInfo prev;
     experience := experience prev;
     education := education prev;
     skills := JS.Array_filter (notAt index) (skills prev);
     projects := projects prev |}.

(** Lines 168-176. *)
Definition addProject (prev : ResumeData) : ResumeData :=
  {| personalInfo := personalInfo prev;
     experience := experience prev;
     education := education prev;
     skills := skills prev;
     projects := Some (JS.orEmpty (projects prev) ++ [emptyProject]) |}.

(** Lines 178-185. *)
Definition updateProject (index : Z) (field value : string) (prev : ResumeData)
  : ResumeData :=
  {| personalInfo := personalInfo prev;
     experience := experience prev;
     education := education prev;
     skills := skills prev;
     projects := Some (JS.Array_map (setFieldAt index field value)
                         (JS.orEmpty (projects prev))) |}.

(** Lines 187-192. *)
Definition removeProject (index : Z) (prev : ResumeData) : ResumeData :=
  {| personalInfo := personalInfo prev;
     experience := experience prev;
     education := education prev;
     skills := skills prev;
     projects := Some (JS.Array_filter (notAt index) (JS.orEmpty (projects prev))) |}.

(** ** Completion score (lines 204-217) *)

(** [if (cond) completed++]. *)
Definition incrIf (cond : bool) (completed : float) : float :=
  if cond then (completed + 1)%float else completed.

Definition getCompletionPercentage (resumeData : ResumeData) : option Z :=
  let completed := 0%float in
  let total := 7%float in
  let completed := incrIf (JS.truthyProp (personalInfo resumeData !! "name")) completed in
  let completed := incrIf (JS.truthyProp (personalInfo resumeData !! "email")) completed in
  let completed := incrIf (JS.truthyProp (personalInfo resumeData !! "summary")) completed in
  let completed := incrIf (0 <? Z.of_nat (length (skills resumeData))) completed in
  let completed := incrIf (0 <? Z.of_nat (length (experience resumeData))) completed in
  let completed := incrIf (0 <? Z.of_nat (length (education resumeData))) completed in
  let completed := incrIf (0 <? Z.of_nat (length (JS.orEmpty (projects resumeData)))) completed in
  JS.Math_round ((completed / total) * 100)%float.

(** The seven predicates of the score, as the specification lists them. *)
Definition completionPredicates (r : ResumeData) : list bool :=
  [ JS.truthyProp (personalInfo r !! "name");
    JS.truthyProp (personalInfo r !! "email");
    JS.truthyProp (personalInfo r !! "summary");
    negb (bool_decide (skills r = []));
    negb (bool_decide (experience r = []));
    negb (bool_decide (education r = []));
    negb (bool_decide (JS.orEmpty (projects r) = [])) ].

Definition countTrue (bs : list bool) : Z :=
  Z.of_nat (length (filter (fun b => b = true) bs)).

(** Rounding to the nearest integer, halves upwards, on exact rationals. *)
Definition roundHalfUp (q : Q) : Z := Qfloor (q + (1 # 2)).

(** round (100 * count / 7). *)
Definition specScore (count : Z) : Z := roundHalfUp ((100 * count # 1) / (7 # 1)).

(** ** JSON text

    [JSON.stringify] and [JSON.parse] on the values that a stored record
    can hold: [null], the booleans, strings, arrays and objects.  The
    serializer follows QuoteJSONString (the quote, the backslash and the
    control characters are escaped, the short escapes where they exist).
    The parser reads the JSON grammar, white space between tokens included,
    and says one of three things of a text: the value it denotes, that
    [JSON.parse] throws a SyntaxError on it, or that the text is outside
    this model.  Outside the model are the texts with a number or with a
    string escape whose code unit is 256 or more: of those nothing is
    claimed. *)

Module JSON.

#[local] Unset Elimination Schemes.
Inductive value :=
| Null
| Bool (b : bool)
| Str (s : string)
| Arr (elements : list value)
| Obj (members : list (string * value)).
#[local] Set Elimination Schemes.

(** What the parser says of a text. *)
Inductive result (A : Type) : Type :=
| Parsed (a : A)
| SyntaxError
| Unmodelled.

Arguments Parsed {A} a.
Arguments SyntaxError {A}.
Arguments Unmodelled {A}.

(** Sequencing: the first text that does not parse decides. *)
Definition bind {A B} (m : result A) (f : A -> result B) : result B :=
  match m with
  | Parsed a => f a
  | SyntaxError => SyntaxError
  | Unmodelled => Unmodelled
  end.

#[global] Instance result_bind : MBind result :=
  fun A B f m => bind m f.

Definition dquote : ascii := "034"%char.
Definition backslash : ascii := "092"%char.
Definition lbracket : ascii := "["%char.
Definition rbracket : ascii := "]"%char.
Definition lbrace : ascii := "{"%char.
Definition rbrace : ascii := "}"%char.
Definition comma : ascii := ","%char.
Definition colon : ascii := ":"%char.

Definition hexDigit (n : nat) : ascii :=
  match String.get n "0123456789abcdef" with Some c => c | None => "0"%char end.

(** The text of one code unit inside a JSON string, put in front of [k]. *)
Definition writeChar (c : ascii) (k : string) : string :=
  if Ascii.eqb c dquote then String backslash (String dquote k)
  else if Ascii.eqb c backslash then String backslash (String backslash k)
  else
    let n := nat_of_ascii c in
    if Nat.eqb n 8 then String backslash (String "b" k)
    else if Nat.eqb n 9 then String backslash (String "t" k)
    else if Nat.eqb n 10 then String backslash (String "n" k)
    else if Nat.eqb n 12 then String backslash (String "f" k)
    else if Nat.eqb n 13 then String backslash (String "r" k)
    else if Nat.ltb n 32 then
      String backslash (String "u" (String "0" (String "0"
        (String (hexDigit (Nat.div n 16)) (String (hexDigit (Nat.modulo n 16)) k)))))
    else String c k.

Fixpoint writeChars (s : string) (k : string) : string :=
  match s with
  | EmptyString => k
  | String c s' => writeChar c (writeChars s' k)
  end.

(** QuoteJSONString, put in front of [k]. *)
Definition writeString (s : string) (k : string) : string :=
  String dquote (writeChars s (String dquote k)).

(** The text of [v] put in front of [k]: the elements of an array and the
    members of an object after the first are each preceded by a comma. *)
Fixpoint write (v : value) (k : string) : string :=
  match v with
  | Null => String "n" (String "u" (String "l" (String "l" k)))
  | Bool true => String "t" (String "r" (String "u" (String "e" k)))
  | Bool false => String "f" (String "a" (String "l" (String "s" (String "e" k))))
  | Str s => writeString s k
  | Arr [] => String lbracket (String rbracket k)
  | Arr (x :: xs) =>
      String lbracket (write x
        (fold_right (fun y rest => String comma (write y rest))
           (String rbracket k) xs))
  | Obj [] => String lbrace (String rbrace k)
  | Obj (m :: ms) =>
      String lbrace (writeString m.1 (String colon (write m.2
        (fold_right
           (fun m' rest =>
              String comma (writeString m'.1 (String colon (write m'.2 rest))))
           (String rbrace k) ms))))
  end.

Definition stringify (v : value) : string := write v EmptyString.

Definition hexValue (c : ascii) : option nat :=
  let n := nat_of_ascii c in
  if (Nat.leb 48 n && Nat.leb n 57)%bool then Some (n - 48)%nat
  else if (Nat.leb 97 n && Nat.leb n 102)%bool then Some (n - 87)%nat
  else if (Nat.leb 65 n && Nat.leb n 70)%bool then Some (n - 55)%nat
  else None.

(** The code unit of a one-letter escape. *)
Definition unescape (e : ascii) : option ascii :=
  if Ascii.eqb e dquote then Some dquote
  else if Ascii.eqb e backslash then Some backslash
  else if Ascii.eqb e "/" then Some "/"%char
  else if Ascii.eqb e "b" then Some (ascii_of_nat 8)
  else if Ascii.eqb e "f" then Some (ascii_of_nat 12)
  else if Ascii.eqb e "n" then Some (ascii_of_nat 10)
  else if Ascii.eqb e "r" then Some (ascii_of_nat 13)
  else if Ascii.eqb e "t" then Some (ascii_of_nat 9)
  else None.

Definition consChar (c : ascii) (r : result (string * string))
  : result (string * string) :=
  bind r (fun p => Parsed (String c p.1, p.2)).

(** The characters of a string up to its closing quote, and the text after
    the quote.  A text that ends inside the string, a control character
    that is not escaped and an escape that JSON does not have are syntax
    errors. *)
Fixpoint parseChars (s : string) : result (string * string) :=
  match s with
  | EmptyString => SyntaxError
  | String c s1 =>
      if Ascii.eqb c dquote then Parsed (EmptyString, s1)
      else if Ascii.eqb c backslash then
        match s1 with
        | EmptyString => SyntaxError
        | String e s2 =>
            if Ascii.eqb e "u" then
              match s2 with
              | String h1 (String h2 (String h3 (String h4 s3))) =>
                  match hexValue h1, hexValue h2, hexValue h3, hexValue h4 with
                  | Some a, Some b, Some c', Some d =>
                      let code := (((a * 16 + b) * 16 + c') * 16 + d)%nat in
                      if Nat.ltb code 256
                      then consChar (ascii_of_nat code) (parseChars s3)
                      else Unmodelled
                  | _, _, _, _ => SyntaxError
                  end
              | _ => SyntaxError
              end
            else
              match unescape e with
              | Some c' => consChar c' (parseChars s2)
              | None => SyntaxError
              end
        end
      else if Nat.ltb (nat_of_ascii c) 32 then SyntaxError
      else consChar c (parseChars s1)
  end.

(** JSON white space: space, TAB, LF, CR. *)
Definition isSpace (c : ascii) : bool :=
  let n := nat_of_ascii c in
  (Nat.eqb n 32 || Nat.eqb n 9 || Nat.eqb n 10 || Nat.eqb n 13)%bool.

Fixpoint skipSpace (s : string) : string :=
  match s with
  | EmptyString => EmptyString
  | String c s' => if isSpace c then skipSpace s' else s
  end.

(** A number starts with a minus sign or a digit. *)
Definition startsNumber (c : ascii) : bool :=
  let n := nat_of_ascii c in
  (Nat.eqb n 45 || (Nat.leb 48 n && Nat.leb n 57))%bool.

(** [s] without its prefix [p], if it has that prefix. *)
Fixpoint stripPrefix (p s : string) : option string :=
  match p with
  | EmptyString => Some s
  | String c p' =>
      match s with
      | String c' s' => if Ascii.eqb c' c then stripPrefix p' s' else None
      | EmptyString => None
      end
  end.

(** The rest of a literal whose first letter has been read. *)
Definition literal (rest : string) (v : value) (s : string)
  : result (value * string) :=
  match stripPrefix rest s with
  | Some s' => Parsed (v, s')
  | None => SyntaxError
  end.

(** A string token, after white space. *)
Definition parseString (s : string) : result (string * string) :=
  match skipSpace s with
  | String c s1 => if Ascii.eqb c dquote then parseChars s1 else SyntaxError
  | EmptyString => SyntaxError
  end.

(** The text after the character [c], when [c] is the next token. *)
Definition expect (c : ascii) (s : string) : option string :=
  match skipSpace s with
  | String c' s1 => if Ascii.eqb c' c then Some s1 else None
  | EmptyString => None
  end.

(** One value, given the parsers for what is nested in it. *)
Definition valueStep
  (pv : string -> result (value * string))
  (pe : string -> result (list value * string))
  (pm : string -> result (list (string * value) * string))
  (s : string) : result (value * string) :=
  match skipSpace s with
  | EmptyString => SyntaxError
  | String c s1 =>
      if Ascii.eqb c dquote then
        p ← parseChars s1; Parsed (Str p.1, p.2)
      else if Ascii.eqb c lbracket then
        match expect rbracket s1 with
        | Some rest => Parsed (Arr [], rest)
        | None =>
            x ← pv s1;
            xs ← pe x.2;
            Parsed (Arr (x.1 :: xs.1), xs.2)
        end
      else if Ascii.eqb c lbrace then
        match expect rbrace s1 with
        | Some rest => Parsed (Obj [], rest)
        | None =>
            key ← parseString s1;
            match expect colon key.2 with
            | Some rest =>
                x ← pv rest;
                ms ← pm x.2;
                Parsed (Obj ((key.1, x.1) :: ms.1), ms.2)
            | None => SyntaxError
            end
        end
      else if Ascii.eqb c "n" then literal "ull" Null s1
      else if Ascii.eqb c "t" then literal "rue" (Bool true) s1
      else if Ascii.eqb c "f" then literal "alse" (Bool false) s1
      else if startsNumber c then Unmodelled
      else SyntaxError
  end.

(** What follows an element of an array: the end of the array, or a comma
    and one more element. *)
Definition elementsStep
  (pv : string -> result (value * string))
  (pe : string -> result (list value * string))
  (s : string) : result (list value * string) :=
  match skipSpace s with
  | EmptyString => SyntaxError
  | String c s1 =>
      if Ascii.eqb c rbracket then Parsed ([], s1)
      else if Ascii.eqb c comma then
        x ← pv s1;
        xs ← pe x.2;
        Parsed (x.1 :: xs.1, xs.2)
      else SyntaxError
  end.

(** What follows a member of an object: the end of the object, or a comma
    and one more member. *)
Definition membersStep
  (pv : string -> result (value * string))
  (pm : string -> result (list (string * value) * string))
  (s : string) : result (list (string * value) * string) :=
  match skipSpace s with
  | EmptyString => SyntaxError
  | String c s1 =>
      if Ascii.eqb c rbrace then Parsed ([], s1)
      else if Ascii.eqb c comma then
        key ← parseString s1;
        match expect colon key.2 with
        | Some rest =>
            x ← pv rest;
            ms ← pm x.2;
            Parsed ((key.1, x.1) :: ms.1, ms.2)
        | None => SyntaxError
        end
      else SyntaxError
  end.

(** The recursive descent, with fuel for the nesting; running out of fuel
    says nothing about the text. *)
Fixpoint parseValue (fuel : nat) (s : string) : result (value * string) :=
  match fuel with
  | O => Unmodelled
  | S fuel' =>
      valueStep (parseValue fuel') (parseElements fuel') (parseMembers fuel') s
  end
with parseElements (fuel : nat) (s : string) : result (list value * string) :=
  match fuel with
  | O => Unmodelled
  | S fuel' => elementsStep (parseValue fuel') (parseElements fuel') s
  end
with parseMembers (fuel : nat) (s : string)
  : result (list (string * value) * string) :=
  match fuel with
  | O => Unmodelled
  | S fuel' => membersStep (parseValue fuel') (parseMembers fuel') s
  end.

(** [JSON.parse]: the whole text is one value, with white space around it
    at most.  The parser consumes a character between any two nested calls,
    so it is given the length of the text as fuel. *)
Definition parse (s : string) : result value :=
  match parseValue (S (String.length s)) s with
  | Parsed p =>
      match skipSpace p.2 with
      | EmptyString => Parsed p.1
      | String _ _ => SyntaxError
      end
  | SyntaxError => SyntaxError
  | Unmodelled => Unmodelled
  end.

(** A bound on the fuel that parsing the text of [v] takes. *)
Fixpoint size (v : value) : nat :=
  match v with
  | Null | Bool _ | Str _ => 1
  | Arr l => S (fold_right (fun x n => S (size x + n)) 0 l)
  | Obj ms => S (fold_right (fun m n => S (size m.2 + n)) 0 ms)
  end%nat.

(** Property read [o.k] on a parsed object: of two members with the same
    key the later one wins. *)
Fixpoint getProp (k : string) (members : list (string * value)) : option value :=
  match members with
  | [] => None
  | (k', v) :: ms =>
      match getProp k ms with
      | Some w => Some w
      | None => if String.eqb k' k then Some v else None
      end
  end.

End JSON.

(** The text of [v] parses back to [v], with any fuel from [JSON.size v]
    on and whatever follows the text. *)
Definition parsesBack (v : JSON.value) : Prop :=
  forall fuel k,
    (JSON.size v <= fuel)%nat ->
    JSON.parseValue fuel (JSON.write v k) = JSON.Parsed (v, k).

(** ** [ResumeData] as a JavaScript value *)

(** The property names of the entries, in the order of the object literals
    of [addExperience], [addEducation] and [addProject]. *)
Definition experienceFields : list string :=
  ["title"; "company"; "duration"; "description"].

Definition educationFields : list string :=
  ["degree"; "institution"; "year"; "gpa"].

Definition projectFields : list string :=
  ["name"; "description"; "technologies"; "link"].

(** The properties of [o] in the order in which [JSON.stringify] walks
    them: the properties named in [order] come first, in that order, which
    is the order in which the component creates them (the spread keeps the
    place of a property that is set again); any other property comes after
    them.  For an object that has held the named properties from the start,
    as every object that the component creates has, this is the order of
    [JSON.stringify].  An object read from a stored text keeps, in
    JavaScript, the order of that text, which a map does not record: its
    members are written in the order above. *)
Definition orderedMembers (order : list string) (o : gmap string string)
  : list (string * string) :=
  omap (fun k => pair k <$> o !! k) order
  ++ filter (fun kv => kv.1 ∉ order) (map_to_list o).

Definition objToJS (order : list string) (o : gmap string string) : JSON.value :=
  JSON.Obj ((fun kv => (kv.1, JSON.Str kv.2)) <$> orderedMembers order o).

Definition objsToJS (order : list string) (l : list (gmap string string))
  : JSON.value :=
  JSON.Arr (objToJS order <$> l).

(** The value [JSON.stringify] walks; a member that is [undefined] is left
    out of the text. *)
Definition toJS (r : ResumeData) : JSON.value :=
  JSON.Obj
    ([("personalInfo", objToJS personalFields (personalInfo r));
      ("experience", objsToJS experienceFields (experience r));
      ("education", objsToJS educationFields (education r));
      ("skills", JSON.Arr (JSON.Str <$> skills r))]
     ++ match projects r with
        | Some l => [("projects", objsToJS projectFields l)]
        | None => []
        end).

Definition asString (v : JSON.value) : option string :=
  match v with JSON.Str s => Some s | _ => None end.

Definition asObj (v : JSON.value) : option (gmap string string) :=
  match v with
  | JSON.Obj ms =>
      list_to_map <$> mapM (fun kv => pair kv.1 <$> asString kv.2) (reverse ms)
  | _ => None
  end.

Definition asArrayOf {A} (f : JSON.value -> option A) (v : JSON.value)
  : option (list A) :=
  match v with JSON.Arr l => mapM f l | _ => None end.

Definition topLevelKeys : list string :=
  ["personalInfo"; "experience"; "education"; "skills"; "projects"].

(** The parsed value read at the type [ResumeData] (TypeScript casts the
    result of [JSON.parse] without a check): [None] when the value is not of
    that type. *)
Definition fromJS (v : JSON.value) : option ResumeData :=
  match v with
  | JSON.Obj ms =>
      if forallb (fun kv => existsb (String.eqb kv.1) topLevelKeys) ms then
        pi ← JSON.getProp "personalInfo" ms ≫= asObj;
        ex ← JSON.getProp "experience" ms ≫= asArrayOf asObj;
        ed ← JSON.getProp "education" ms ≫= asArrayOf asObj;
        sk ← JSON.getProp "skills" ms ≫= asArrayOf asString;
        pr ← match JSON.getProp "projects" ms with
             | None => Some None
             | Some a => Some <$> asArrayOf asObj a
             end;
        Some {| personalInfo := pi; experience := ex; education := ed;
                skills := sk; projects := pr |}
      else None
  | _ => None
  end.

(** ** The component: state, storage, timers

    The hooks of the component that the autosave and the persistence touch,
    the active section, on which the render depends, and whether the
    component is still mounted.  The state that only drives the display
    (selected template, open modal) is left out.  [localStorage] is an opaque
    key-to-text store that may reject a write (it throws, as on an exceeded
    quota); what it rejects is up to the store, [accepts]. *)

Record Storage := mkStorage {
  items : gmap string string;
  accepts : gmap string string -> string -> string -> bool
}.

Definition getItem (k : string) (st : Storage) : option string := items st !! k.

(** [None]: [setItem] throws. *)
Definition setItem (k v : string) (st : Storage) : option Storage :=
  if accepts st (items st) k v
  then Some {| items := <[k := v]> (items st); accepts := accepts st |}
  else None.

Inductive Toast :=
| ToastSuccess (message : string)
| ToastError (message : string).

(** A pending [setTimeout (() => saveToLocalStorage (), 2000)]: when it is
    due, and the [resumeData] of the render that created it, which the
    callback closes over. *)
Record AutosaveTimer := mkAutosaveTimer {
  due : Z;
  captured : ResumeData
}.

(** The sections of the form (line 48). *)
Inductive SectionId :=
| PersonalSection
| ExperienceSection
| EducationSection
| SkillsSection
| ProjectsSection.

Record Component := mkComponent {
  resumeData : ResumeData;
  isSaving : bool;
  lastSaved : option Z;
  (** the timer of the autosave effect that is still pending, if any *)
  autosaveTimer : option AutosaveTimer;
  (** due times of the pending [setTimeout (() => setIsSaving (false), 500)] *)
  savingTimers : list Z;
  localStorage : Storage;
  (** every call of [localStorage.setItem] so far: time, key, text *)
  setItemCalls : list (Z * string * string);
  toasts : list Toast;
  consoleErrors : list string;
  (** the current time, in milliseconds *)
  now : Z;
  activeSection : SectionId;
  (** false once a render has thrown: React has unmounted the component *)
  mounted : bool
}.

Definition storageKey : string := "resumeData".

(** [saveToLocalStorage] (lines 66-76), run at time [now c] by a callback
    that closes over the record [data].  The two [setIsSaving] calls of the
    failure path are batched: the last one stands. *)
Definition saveToLocalStorage (data : ResumeData) (c : Component) : Component :=
  let text := JSON.stringify (toJS data) in
  let calls := setItemCalls c ++ [(now c, storageKey, text)] in
  match setItem storageKey text (localStorage c) with
  | Some store =>
      {| resumeData := resumeData c;
         isSaving := true;
         lastSaved := Some (now c);
         autosaveTimer := autosaveTimer c;
         savingTimers := savingTimers c ++ [now c + 500];
         localStorage := store;
         setItemCalls := calls;
         toasts := toasts c;
         consoleErrors := consoleErrors c;
         now := now c;
         activeSection := activeSection c;
         mounted := mounted c |}
  | None =>
      {| resumeData := resumeData c;
         isSaving := false;
         lastSaved := lastSaved c;
         autosaveTimer := autosaveTimer c;
         savingTimers := savingTimers c;
         localStorage := localStorage c;
         setItemCalls := calls;
         toasts := toasts c ++ [ToastError "Failed to save data"];
         consoleErrors := consoleErrors c;
         now := now c;
         activeSection := activeSection c;
         mounted := mounted c |}
  end.

(** The "Save Progress" button (line 337): the handler of the current
    render. *)
Definition saveNow (c : Component) : Component :=
  saveToLocalStorage (resumeData c) c.

(** Whether the render of the component's own JSX (lines 227-1024) throws
    on the record [data] with the section [section] shown.  Two places can:
    line 518 reads [personalInfo.summary.length] in the personal section,
    which throws when [summary] is [undefined]; line 821 renders [X] for
    every skill shown in the skills section, and [X] is not among the names
    the file imports (lines 3-20), so evaluating it throws.  The child
    components ([TemplateSelector], [ResumePreview], [ResumeImporter]) are
    not part of the file and are taken to render. *)
Definition renderThrows (section : SectionId) (data : ResumeData) : bool :=
  match section with
  | PersonalSection =>
      match personalInfo data !! "summary" with Some _ => false | None => true end
  | SkillsSection => 0 <? Z.of_nat (length (skills data))
  | ExperienceSection | EducationSection | ProjectsSection => false
  end.

(** Any [setResumeData]: the record is replaced and the component renders
    again.  When the render succeeds, since [resumeData] is a dependency of
    the autosave effect (lines 53-59), its cleanup clears the pending timer
    and the effect sets a new one, whose callback closes over the new
    record.  When the render throws, nothing catches the error: React
    unmounts the component and the cleanup of the effect (line 58) clears the
    pending timer.  On a component that is no longer mounted no event can
    occur; there only the value handed over is recorded. *)
Definition setResumeData (data : ResumeData) (c : Component) : Component :=
  if (mounted c && negb (renderThrows (activeSection c) data))%bool then
    {| resumeData := data;
       isSaving := isSaving c;
       lastSaved := lastSaved c;
       autosaveTimer := Some {| due := now c + 2000; captured := data |};
       savingTimers := savingTimers c;
       localStorage := localStorage c;
       setItemCalls := setItemCalls c;
       toasts := toasts c;
       consoleErrors := consoleErrors c;
       now := now c;
       activeSection := activeSection c;
       mounted := true |}
  else
    {| resumeData := data;
       isSaving := isSaving c;
       lastSaved := lastSaved c;
       autosaveTimer := None;
       savingTimers := savingTimers c;
       localStorage := localStorage c;
       setItemCalls := setItemCalls c;
       toasts := toasts c;
       consoleErrors := consoleErrors c;
       now := now c;
       activeSection := activeSection c;
       mounted := false |}.

(** A click in the section navigation (line 375): the section changes and
    the component renders again; [resumeData] is the same, so the autosave
    effect does not run, unless the render throws and the component is
    unmounted. *)
Definition setActiveSection (section : SectionId) (c : Component) : Component :=
  if (mounted c && negb (renderThrows section (resumeData c)))%bool then
    {| resumeData := resumeData c;
       isSaving := isSaving c;
       lastSaved := lastSaved c;
       autosaveTimer := autosaveTimer c;
       savingTimers := savingTimers c;
       localStorage := localStorage c;
       setItemCalls := setItemCalls c;
       toasts := toasts c;
       consoleErrors := consoleErrors c;
       now := now c;
       activeSection := section;
       mounted := true |}
  else
    {| resumeData := resumeData c;
       isSaving := isSaving c;
       lastSaved := lastSaved c;
       autosaveTimer := None;
       savingTimers := savingTimers c;
       localStorage := localStorage c;
       setItemCalls := setItemCalls c;
       toasts := toasts c;
       consoleErrors := consoleErrors c;
       now := now c;
       activeSection := section;
       mounted := false |}.

(** A handler that calls [setResumeData (prev => f prev)]. *)
Definition change (f : ResumeData -> ResumeData) (c : Component) : Component :=
  setResumeData (f (resumeData c)) c.

(** [addSkill] as an event of the component: it calls [setResumeData] only
    when its guard holds; otherwise nothing is set and the pending timer
    stays as it is. *)
Definition onAddSkill (skill : string) (c : Component) : Component :=
  if (JS.truthy (JS.trim skill)
      && negb (JS.includes (skills (resumeData c)) (JS.trim skill)))%bool
  then change (addSkillIn (resumeData c) skill) c
  else c.

Definition addToast (t : Toast) (c : Component) : Component :=
  {| resumeData := resumeData c;
     isSaving := isSaving c;
     lastSaved := lastSaved c;
     autosaveTimer := autosaveTimer c;
     savingTimers := savingTimers c;
     localStorage := localStorage c;
     setItemCalls := setItemCalls c;
     toasts := toasts c ++ [t];
     consoleErrors := consoleErrors c;
     now := now c;
     activeSection := activeSection c;
     mounted := mounted c |}.

Definition logError (message : string) (c : Component) : Component :=
  {| resumeData := resumeData c;
     isSaving := isSaving c;
     lastSaved := lastSaved c;
     autosaveTimer := autosaveTimer c;
     savingTimers := savingTimers c;
     localStorage := localStorage c;
     setItemCalls := setItemCalls c;
     toasts := toasts c;
     consoleErrors := consoleErrors c ++ [message];
     now := now c;
     activeSection := activeSection c;
     mounted := mounted c |}.

(** What [loadFromLocalStorage] leaves behind. *)
Inductive Loaded :=
| LoadedState (c : Component)
  (** [setResumeData] received the value [v], which is not a [ResumeData],
      and the success toast was shown; [c] is the state with the toast, what
      the component does with [v] in place of a record is not modelled *)
| LoadedUntyped (v : JSON.value) (c : Component)
  (** the stored text is outside the model of [JSON.parse]: what the load
      does on the state [c] is not modelled *)
| LoadedUnmodelled (c : Component).

(** [loadFromLocalStorage] (lines 78-88).  A missing key reads as [null] and
    an empty text is falsy: both leave the state alone.  A text that parses
    is handed to [setResumeData] and the success toast is shown; the catch
    branch logs the SyntaxError of a text that does not parse. *)
Definition loadFromLocalStorage (c : Component) : Loaded :=
  match getItem storageKey (localStorage c) with
  | Some saved =>
      if JS.truthy saved then
        match JSON.parse saved with
        | JSON.Parsed v =>
            match fromJS v with
            | Some data =>
                LoadedState
                  (addToast (ToastSuccess "Previous data loaded") (setResumeData data c))
            | None =>
                LoadedUntyped v (addToast (ToastSuccess "Previous data loaded") c)
            end
        | JSON.SyntaxError => LoadedState (logError "Failed to load saved data:" c)
        | JSON.Unmodelled => LoadedUnmodelled c
        end
      else LoadedState c
  | None => LoadedState c
  end.

(** [onDataImported] of the importer dialog (lines 1014-1018). *)
Definition onDataImported (data : ResumeData) (c : Component) : Component :=
  addToast (ToastSuccess "Resume data imported successfully!") (setResumeData data c).

(** The callbacks [() => setIsSaving (false)] that are due by [t]
    (inclusive or not) run. *)
Definition fireSavingTimers (inclusive : bool) (t : Z) (c : Component) : Component :=
  let isDue d := if inclusive then d <=? t else d <? t in
  {| resumeData := resumeData c;
     isSaving := if existsb isDue (savingTimers c) then false else isSaving c;
     lastSaved := lastSaved c;
     autosaveTimer := autosaveTimer c;
     savingTimers := List.filter (fun d => negb (isDue d)) (savingTimers c);
     localStorage := localStorage c;
     setItemCalls := setItemCalls c;
     toasts := toasts c;
     consoleErrors := consoleErrors c;
     now := now c;
     activeSection := activeSection c;
     mounted := mounted c |}.

Definition setClock (t : Z) (c : Component) : Component :=
  {| resumeData := resumeData c;
     isSaving := isSaving c;
     lastSaved := lastSaved c;
     autosaveTimer := autosaveTimer c;
     savingTimers := savingTimers c;
     localStorage := localStorage c;
     setItemCalls := setItemCalls c;
     toasts := toasts c;
     consoleErrors := consoleErrors c;
     now := Z.max t (now c);
     activeSection := activeSection c;
     mounted := mounted c |}.

Definition clearAutosaveTimer (c : Component) : Component :=
  {| resumeData := resumeData c;
     isSaving := isSaving c;
     lastSaved := lastSaved c;
     autosaveTimer := None;
     savingTimers := savingTimers c;
     localStorage := localStorage c;
     setItemCalls := setItemCalls c;
     toasts := toasts c;
     consoleErrors := consoleErrors c;
     now := now c;
     activeSection := activeSection c;
     mounted := mounted c |}.

(** Time passes until [t]: the timers that are due by then run, in the order
    of their due times.  The autosave timer runs its save at its due time; a
    timer of [savingTimers] with the same due time was set later (500
    against 2000 before), so it runs after it.  The save does not touch
    [resumeData], so the autosave effect does not run again and sets no new
    timer.  An unmounted component has no autosave timer left, and what the
    [setIsSaving] timers set on it shows nowhere. *)
Definition advance (t : Z) (c : Component) : Component :=
  let c1 :=
    match autosaveTimer c with
    | Some timer =>
        if due timer <=? t then
          saveToLocalStorage (captured timer)
            (clearAutosaveTimer
               (setClock (due timer) (fireSavingTimers false (due timer) c)))
        else c
    | None => c
    end in
  setClock t (fireSavingTimers true t c1).

(** A run of the component: form changes at given times, oldest first. *)
Definition changeAt (c : Component) (ev : Z * (ResumeData -> ResumeData)) : Component :=
  change ev.2 (advance ev.1 c).

Definition run (events : list (Z * (ResumeData -> ResumeData))) (c : Component)
  : Component :=
  fold_left changeAt events c.

Definition emptyStorage : Storage :=
  {| items := ∅; accepts := fun _ _ _ => true |}.

(** The component right after its first render at time [t], before its
    effects have run. *)
Definition firstRender (store : Storage) (t : Z) : Component :=
  {| resumeData := initialResumeData;
     isSaving := false;
     lastSaved := None;
     autosaveTimer := None;
     savingTimers := [];
     localStorage := store;
     setItemCalls := [];
     toasts := [];
     consoleErrors := [];
     now := t;
     activeSection := PersonalSection;
     mounted := true |}.

(** ** Calls on the experience list, and who is who in it

    The list has no identifiers: position is identity.  To say what happens
    to "an entry" over a sequence of calls, the same calls are run on a list
    whose entries carry a tag that the code never sees: the entries of the
    starting record are tagged by their position, every added entry gets the
    next free tag. *)

Inductive ExperienceCall :=
| CallAdd
| CallUpdate (index : Z) (field value : string)
| CallRemove (index : Z).

Definition applyCall (r : ResumeData) (call : ExperienceCall) : ResumeData :=
  match call with
  | CallAdd => addExperience r
  | CallUpdate index field value => updateExperience index field value r
  | CallRemove index => removeExperience index r
  end.

Definition applyCalls (calls : list ExperienceCall) (r : ResumeData) : ResumeData :=
  fold_left applyCall calls r.

Definition isAdd (call : ExperienceCall) : bool :=
  match call with CallAdd => true | _ => false end.

Definition isRemove (call : ExperienceCall) : bool :=
  match call with CallRemove _ => true | _ => false end.

Definition countAdds (calls : list ExperienceCall) : nat :=
  length (List.filter isAdd calls).

Definition countRemoves (calls : list ExperienceCall) : nat :=
  length (List.filter isRemove calls).

(** [index] is the position of an entry of a list of length [n]. *)
Definition inRange (index : Z) (n : nat) : bool :=
  (0 <=? index) && (index <? Z.of_nat n).

(** The [removeExperience] calls of the sequence whose index is the position
    of an entry at the time of the call. *)
Fixpoint countRemovesInRange (calls : list ExperienceCall) (r : ResumeData) : nat :=
  match calls with
  | [] => 0%nat
  | call :: calls' =>
      ((match call with
        | CallRemove index =>
            if inRange index (length (experience r)) then 1 else 0
        | _ => 0
        end) + countRemovesInRange calls' (applyCall r call))%nat
  end.

(** One update that reached an entry: the entry's tag, the field, the value. *)
Record Write := mkWrite {
  target : nat;
  writtenField : string;
  writtenValue : string
}.

(** The element at position [index], if [index] is a position. *)
Definition entryAt {A} (index : Z) (l : list A) : option A :=
  if 0 <=? index then l !! Z.to_nat index else None.

Record Tracked := mkTracked {
  tagged : list (nat * gmap string string);
  nextTag : nat;
  (** the updates that reached an entry, oldest first *)
  history : list Write
}.

Definition trackStart (r : ResumeData) : Tracked :=
  {| tagged := JS.Array_map (fun e i => (i, e)) (experience r);
     nextTag := length (experience r);
     history := [] |}.

(** The three handlers on the tagged list: the same [map], [filter] and
    spread as in the component, the tag carried along; an update is entered
    in the history under the tag of the entry at its index, if there is
    one. *)
Definition trackCall (t : Tracked) (call : ExperienceCall) : Tracked :=
  match call with
  | CallAdd =>
      {| tagged := tagged t ++ [(nextTag t, emptyExperience)];
         nextTag := S (nextTag t);
         history := history t |}
  | CallUpdate index field value =>
      {| tagged :=
           JS.Array_map (fun te i => (te.1, setFieldAt index field value te.2 i))
             (tagged t);
         nextTag := nextTag t;
         history :=
           history t ++
             match entryAt index (tagged t) with
             | Some te => [mkWrite te.1 field value]
             | None => []
             end |}
  | CallRemove index =>
      {| tagged := JS.Array_filter (notAt index) (tagged t);
         nextTag := nextTag t;
         history := history t |}
  end.

Definition trackCalls (calls : list ExperienceCall) (r : ResumeData) : Tracked :=
  fold_left trackCall calls (trackStart r).

(** The value of the last update of [field] that reached the entry [tag]. *)
Fixpoint lastWrite (tag : nat) (field : string) (h : list Write) : option string :=
  match h with
  | [] => None
  | w :: h' =>
      match lastWrite tag field h' with
      | Some v => Some v
      | None =>
          if (Nat.eqb (target w) tag && String.eqb (writtenField w) field)%bool
          then Some (writtenValue w) else None
      end
  end.

(** The entry [tag] as it entered the list: an entry of the starting record,
    or the empty entry of [addExperience]. *)
Definition origin (r : ResumeData) (tag : nat) : gmap string string :=
  match experience r !! tag with
  | Some e => e
  | None => emptyExperience
  end.

(** What the entry [tag] should hold in [field] after the updates of [h]:
    the value of the last update of that field that reached it, or, when
    there was none, what it entered the list with. *)
Definition expected (r : ResumeData) (h : list Write) (tag : nat) (field : string)
  : option string :=
  match lastWrite tag field h with
  | Some v => Some v
  | None => origin r tag !! field
  end.

(** What holds of the tagged list all along a sequence of calls started on
    the record [r]. *)
Record TrackInv (r : ResumeData) (t : Tracked) : Prop := mkTrackInv {
  inv_tags_bound : forall tag, tag ∈ (tagged t).*1 -> (tag < nextTag t)%nat;
  inv_tags_distinct : NoDup (tagged t).*1;
  inv_start : (length (experience r) <= nextTag t)%nat;
  inv_history_bound : forall w, w ∈ history t -> (target w < nextTag t)%nat;
  inv_fields : forall tag e field,
    (tag, e) ∈ tagged t -> e !! field = expected r (history t) tag field
}.

(** [projects] with the absent list read as the empty one. *)
Definition normalizeProjects (r : ResumeData) : ResumeData :=
  {| personalInfo := personalInfo r;
     experience := experience r;
     education := education r;
     skills := skills r;
     projects := Some (JS.orEmpty (projects r)) |}.

(** How often [t] occurs in [l]. *)
Definition occurrences (t : string) (l : list string) : nat :=
  length (List.filter (String.eqb t) l).

(** A record with [skills] replaced. *)
Definition withSkills (l : list string) (r : ResumeData) : ResumeData :=
  {| personalInfo := personalInfo r;
     experience := experience r;
     education := education r;
     skills := l;
     projects := projects r |}.

(** ** Sample values *)

(** A record with every scored section filled. *)
Definition sampleFullRecord : ResumeData :=
  {| personalInfo := obj [("name", "Ada"); ("email", "ada@example.org");
                          ("summary", "Engineer")];
     experience := [emptyExperience];
     education := [emptyEducation];
     skills := ["Coq"];
     projects := Some [emptyProject] |}.

(** A record as an older version of the component, or an importer, may
    hand it over: no [projects] member. *)
Definition recordWithoutProjects : ResumeData :=
  {| personalInfo := obj [("name", "Ada")];
     experience := [];
     education := [];
     skills := ["Coq"];
     projects := None |}.

(** A store that rejects every write. *)
Definition fullStorage : Storage :=
  {| items := ∅; accepts := fun _ _ _ => false |}.

(** Two entries added and edited, the first removed, the other edited
    again, and an update that reaches nothing. *)
Definition sampleCalls : list ExperienceCall :=
  [CallAdd; CallAdd; CallUpdate 0 "title" "Dev"; CallUpdate 1 "title" "QA";
   CallRemove 0; CallUpdate 0 "title" "Lead"; CallUpdate 5 "title" "Nobody"].

(** ** The first render, runs of changes, and what the lists keep *)

(** The autosave effect (lines 53-59) run on its own: it sets the timer on
    the record of the render. *)
Definition runAutosaveEffect (c : Component) : Component :=
  {| resumeData := resumeData c;
     isSaving := isSaving c;
     lastSaved := lastSaved c;
     autosaveTimer := Some {| due := now c + 2000; captured := resumeData c |};
     savingTimers := savingTimers c;
     localStorage := localStorage c;
     setItemCalls := setItemCalls c;
     toasts := toasts c;
     consoleErrors := consoleErrors c;
     now := now c;
     activeSection := activeSection c;
     mounted := mounted c |}.

(** The effects of the first render at time [t], in the order of the
    source: the autosave effect, then the load effect (lines 62-64). *)
Definition mount (store : Storage) (t : Z) : Loaded :=
  loadFromLocalStorage (runAutosaveEffect (firstRender store t)).

(** The store takes whatever it is given. *)
Definition acceptsAll (store : Storage) : Prop :=
  forall its k v, accepts store its k v = true.

(** The text under which [data] is persisted. *)
Definition textOf (data : ResumeData) : string := JSON.stringify (toJS data).

(** Changes that follow each other within the quiet window: each one at or
    after the one before, and less than 2000 after it. *)
Fixpoint withinWindow (prev : Z) (events : list (Z * (ResumeData -> ResumeData)))
  : Prop :=
  match events with
  | [] => True
  | ev :: rest => prev <= ev.1 < prev + 2000 /\ withinWindow ev.1 rest
  end.

(** The time of the last change of a run that starts at [t0]. *)
Definition lastTime (t0 : Z) (events : list (Z * (ResumeData -> ResumeData))) : Z :=
  fold_left (fun _ ev => ev.1) events t0.

(** The record after all the changes of a run. *)
Definition applyChanges (events : list (Z * (ResumeData -> ResumeData)))
  (r : ResumeData) : ResumeData :=
  fold_left (fun r ev => ev.2 r) events r.

(** Skills as [addSkill] makes them: distinct, non-empty and trimmed. *)
Definition skillsWellFormed (l : list string) : Prop :=
  NoDup l /\ Forall (fun s => s <> "" /\ JS.trim s = s) l.

(** The score of [r1] is at most the score of [r2]. *)
Definition scoreLe (r1 r2 : ResumeData) : Prop :=
  exists n1 n2,
    getCompletionPercentage r1 = Some n1 /\
    getCompletionPercentage r2 = Some n2 /\ n1 <= n2.

(** Every predicate that holds of [r1] holds of [r2]. *)
Definition predicatesLe (r1 r2 : ResumeData) : Prop :=
  Forall2 (fun a b => a = true -> b = true)
    (completionPredicates r1) (completionPredicates r2).

(** Records with one list replaced. *)
Definition withExperience (l : list (gmap string string)) (r : ResumeData)
  : ResumeData :=
  {| personalInfo := personalInfo r;
     experience := l;
     education := education r;
     skills := skills r;
     projects := projects r |}.

Definition withEducation (l : list (gmap string string)) (r : ResumeData)
  : ResumeData :=
  {| personalInfo := personalInfo r;
     experience := experience r;
     education := l;
     skills := skills r;
     projects := projects r |}.

Definition withProjects (l : list (gmap string string)) (r : ResumeData)
  : ResumeData :=
  {| personalInfo := personalInfo r;
     experience := experience r;
     education := education r;
     skills := skills r;
     projects := Some l |}.

(** [l'] is [l] without its element at position [k]: the elements before
    [k] stay where they are, the later ones move down by one. *)
Definition removedAt {A} (k : nat) (l l' : list A) : Prop :=
  forall j, l' !! j = if decide (j < k)%nat then l !! j else l !! S j.

(** [l'] is [l] with [field] set to [value] in the entry at position [k],
    if there is one, and nothing else changed. *)
Definition changedAt (k : nat) (field value : string)
  (l l' : list (gmap string string)) : Prop :=
  forall j, l' !! j = if decide (j = k) then insert field value <$> l !! j else l !! j.

(** A name typed at 0 and at 500, the skills section opened at 800, and a
    first skill added there at 1000; then time passes until [T]. *)
Definition skillCrashScenario (T : Z) : Component :=
  advance T
    (onAddSkill "Python"
       (advance 1000
          (setActiveSection SkillsSection
             (advance 800
                (run [(0, handlePersonalInfoChange "name" "A");
                      (500, handlePersonalInfoChange "name" "Ad")]
                   (firstRender emptyStorage 0)))))).

(** Every record along a run of changes renders in the section [section]. *)
Fixpoint rendersAll (section : SectionId)
  (events : list (Z * (ResumeData -> ResumeData))) (r : ResumeData) : Prop :=
  match events with
  | [] => True
  | ev :: rest =>
      renderThrows section (ev.2 r) = false /\ rendersAll section rest (ev.2 r)
  end.

(** The text [text] holds the record [data]: [JSON.parse] gives a value
    that is this record. *)
Definition textHolds (text : string) (data : ResumeData) : Prop :=
  exists v, JSON.parse text = JSON.Parsed v /\ fromJS v = Some data.

(* ------------------------------------------------------------------ *)
(** * Properties *)

(** ** Completion score *)

Lemma nonempty_length {A} `{EqDecision A} (l : list A) :
  (0 <? Z.of_nat (length l)) = negb (bool_decide (l = [])).
Proof. destruct l; reflexivity. Qed.

Lemma getCompletionPercentage_predicates r :
  getCompletionPercentage r = Some (specScore (countTrue (completionPredicates r))).
Proof.
  unfold getCompletionPercentage, completionPredicates.
  rewrite !nonempty_length.
  destruct (JS.truthyProp (personalInfo r !! "name")),
    (JS.truthyProp (personalInfo r !! "email")),
    (JS.truthyProp (personalInfo r !! "summary")),
    (bool_decide (skills r = [])), (bool_decide (experience r = [])),
    (bool_decide (education r = [])),
    (bool_decide (JS.orEmpty (projects r) = []));
    vm_compute; reflexivity.
Qed.

Lemma truthyProp_nonempty (o : option string) (s : string) :
  o = Some s -> s <> "" -> JS.truthyProp o = true.
Proof. intros -> Hs. destruct s; [congruence | reflexivity]. Qed.

(** C1: the completion score evaluates exactly seven predicates of the
    record (name, email and summary of personalInfo non-empty; skills,
    experience, education and projects non-empty, an absent projects list
    counting as empty) and returns round (100 * count / 7); the initial, empty
    record scores 0, and a record with a name, an email, a summary, one
    skill, one experience, one education and one project scores 100. *)
Theorem completion_score_seven_predicates :
  (forall r,
     length (completionPredicates r) = 7%nat /\
     getCompletionPercentage r
       = Some (specScore (countTrue (completionPredicates r)))) /\
  getCompletionPercentage initialResumeData = Some 0 /\
  (forall r name email summary skill e d p,
     personalInfo r !! "name" = Some name -> name <> "" ->
     personalInfo r !! "email" = Some email -> email <> "" ->
     personalInfo r !! "summary" = Some summary -> summary <> "" ->
     skills r = [skill] -> experience r = [e] -> education r = [d] ->
     projects r = Some [p] ->
     getCompletionPercentage r = Some 100).
Proof.
  split; [|split].
  - intros r. split; [reflexivity | apply getCompletionPercentage_predicates].
  - vm_compute. reflexivity.
  - intros r name email summary skill e d p Hn Hn' He He' Hs Hs' Hsk Hex Hed Hpr.
    rewrite getCompletionPercentage_predicates. unfold completionPredicates.
    rewrite (truthyProp_nonempty _ _ Hn Hn'), (truthyProp_nonempty _ _ He He'),
      (truthyProp_nonempty _ _ Hs Hs'), Hsk, Hex, Hed, Hpr.
    vm_compute. reflexivity.
Qed.

Lemma completion_score_seven_predicates_witness :
  getCompletionPercentage sampleFullRecord = Some 100.
Proof.
  apply (proj2 (proj2 completion_score_seven_predicates) sampleFullRecord
           "Ada" "ada@example.org" "Engineer" "Coq"
           emptyExperience emptyEducation emptyProject);
    solve [reflexivity | discriminate].
Defined.

(** ** Lists under the index callbacks *)

Lemma mapFrom_length {A B} (f : A -> nat -> B) l i :
  length (JS.mapFrom f i l) = length l.
Proof. revert i. induction l as [|x l IH]; intros i; simpl; [|rewrite IH]; reflexivity. Qed.

Lemma Array_map_length {A B} (f : A -> nat -> B) l :
  length (JS.Array_map f l) = length l.
Proof. apply mapFrom_length. Qed.

Lemma inRange_false index n :
  inRange index n = false <-> index < 0 \/ Z.of_nat n <= index.
Proof. unfold inRange. rewrite andb_false_iff, Z.leb_gt, Z.ltb_ge. reflexivity. Qed.

Lemma inRange_true index n :
  inRange index n = true <-> 0 <= index < Z.of_nat n.
Proof. unfold inRange. rewrite andb_true_iff, Z.leb_le, Z.ltb_lt. reflexivity. Qed.

Lemma strictEq_true i index : JS.strictEq i index = true <-> Z.of_nat i = index.
Proof. apply Z.eqb_eq. Qed.

Lemma strictEq_false i index : JS.strictEq i index = false <-> Z.of_nat i <> index.
Proof. apply Z.eqb_neq. Qed.

(** No position from [i] on is [index]: the [map] of an update changes
    nothing. *)
Lemma mapFrom_setFieldAt_miss index field value l i :
  index < Z.of_nat i \/ Z.of_nat (i + length l) <= index ->
  JS.mapFrom (setFieldAt index field value) i l = l.
Proof.
  revert i. induction l as [|e l IH]; intros i Hout; simpl; [reflexivity|].
  unfold setFieldAt at 1.
  replace (JS.strictEq i index) with false
    by (symmetry; apply strictEq_false; simpl in Hout; lia).
  f_equal. apply IH. simpl in Hout. lia.
Qed.

(** ... and the [filter] of a removal keeps everything. *)
Lemma filterFrom_notAt_miss {A} index (l : list A) i :
  index < Z.of_nat i \/ Z.of_nat (i + length l) <= index ->
  JS.filterFrom (notAt index) i l = l.
Proof.
  revert i. induction l as [|e l IH]; intros i Hout; simpl; [reflexivity|].
  unfold notAt at 1.
  replace (JS.strictEq i index) with false
    by (symmetry; apply strictEq_false; simpl in Hout; lia).
  simpl. f_equal. apply IH. simpl in Hout. lia.
Qed.

Lemma Array_map_out_of_range index field value l :
  inRange index (length l) = false ->
  JS.Array_map (setFieldAt index field value) l = l.
Proof.
  intros H%inRange_false. apply mapFrom_setFieldAt_miss. simpl. lia.
Qed.

Lemma Array_filter_out_of_range {A} index (l : list A) :
  inRange index (length l) = false ->
  JS.Array_filter (notAt index) l = l.
Proof.
  intros H%inRange_false. apply filterFrom_notAt_miss. simpl. lia.
Qed.

Lemma completionPredicates_score r1 r2 :
  completionPredicates r1 = completionPredicates r2 ->
  getCompletionPercentage r1 = getCompletionPercentage r2.
Proof. intros H. rewrite !getCompletionPercentage_predicates, H. reflexivity. Qed.

Lemma nonempty_same_length {A B} `{EqDecision A} `{EqDecision B}
  (l1 : list A) (l2 : list B) :
  length l1 = length l2 ->
  bool_decide (l1 = []) = bool_decide (l2 = []).
Proof. destruct l1, l2; simpl; intros H; (discriminate || reflexivity). Qed.

Lemma Array_map_empty (f : gmap string string -> nat -> gmap string string) l :
  bool_decide (JS.Array_map f l = []) = bool_decide (l = []).
Proof. apply nonempty_same_length, Array_map_length. Qed.

(** C10: the score depends only on the seven emptiness predicates: two
    records that agree on them have the same score; so editing phone,
    location, linkedin or github, updating a field of an experience,
    education or project entry, or replacing the skills by as many other
    skills, does not change it. *)
Theorem completion_score_depends_on_emptiness_only :
  (forall r1 r2,
     completionPredicates r1 = completionPredicates r2 ->
     getCompletionPercentage r1 = getCompletionPercentage r2) /\
  (forall field value r,
     field ∈ ["phone"; "location"; "linkedin"; "github"] ->
     getCompletionPercentage (handlePersonalInfoChange field value r)
       = getCompletionPercentage r) /\
  (forall index field value r,
     getCompletionPercentage (updateExperience index field value r)
       = getCompletionPercentage r /\
     getCompletionPercentage (updateEducation index field value r)
       = getCompletionPercentage r /\
     getCompletionPercentage (updateProject index field value r)
       = getCompletionPercentage r) /\
  (forall l r,
     length l = length (skills r) ->
     getCompletionPercentage (withSkills l r) = getCompletionPercentage r).
Proof.
  split; [exact completionPredicates_score|].
  split; [|split].
  - intros field value r Hf. apply completionPredicates_score.
    unfold completionPredicates, handlePersonalInfoChange; simpl.
    repeat (apply elem_of_cons in Hf as [->|Hf]);
      [rewrite !lookup_insert_ne by discriminate; reflexivity ..
      | inversion Hf].
  - intros index field value r. repeat split; apply completionPredicates_score;
      unfold completionPredicates; simpl;
      rewrite Array_map_empty; reflexivity.
  - intros l r Hl. apply completionPredicates_score.
    unfold completionPredicates; simpl.
    rewrite (nonempty_same_length l (skills r) Hl). reflexivity.
Qed.

Lemma completion_score_depends_on_emptiness_only_witness :
  getCompletionPercentage sampleFullRecord
    = getCompletionPercentage
        (addSkill "Rocq" (handlePersonalInfoChange "name" "Grace" sampleFullRecord)) /\
  getCompletionPercentage (handlePersonalInfoChange "phone" "555" sampleFullRecord)
    = getCompletionPercentage sampleFullRecord /\
  getCompletionPercentage (withSkills ["Lean"] sampleFullRecord)
    = getCompletionPercentage sampleFullRecord.
Proof.
  destruct completion_score_depends_on_emptiness_only as (Hgen & Hpers & _ & Hskills).
  split; [|split].
  - apply Hgen. vm_compute. reflexivity.
  - apply Hpers. apply list_elem_of_here.
  - apply Hskills. reflexivity.
Defined.

(** ** Skills *)

Lemma truthy_true s : JS.truthy s = true <-> s <> "".
Proof. destruct s; simpl; split; congruence. Qed.

Lemma addSkill_appends skill r :
  JS.trim skill <> "" -> JS.trim skill ∉ skills r ->
  addSkill skill r = withSkills (skills r ++ [JS.trim skill]) r.
Proof.
  intros Hne Hnew. unfold addSkill, addSkillIn, JS.includes.
  rewrite (proj2 (truthy_true _) Hne), (bool_decide_eq_false_2 _ Hnew).
  reflexivity.
Qed.

Lemma addSkill_noop skill r :
  JS.trim skill = "" \/ JS.trim skill ∈ skills r -> addSkill skill r = r.
Proof.
  intros [Hempty|Hin]; unfold addSkill, addSkillIn, JS.includes.
  - rewrite Hempty. reflexivity.
  - rewrite (bool_decide_eq_true_2 _ Hin), andb_false_r. reflexivity.
Qed.

Lemma occurrences_app t l1 l2 :
  occurrences t (l1 ++ l2) = (occurrences t l1 + occurrences t l2)%nat.
Proof. unfold occurrences. rewrite List.filter_app, length_app. reflexivity. Qed.

Lemma occurrences_absent t l : t ∉ l -> occurrences t l = 0%nat.
Proof.
  unfold occurrences. induction l as [|x l IH]; intros Hnot; simpl; [reflexivity|].
  apply not_elem_of_cons in Hnot as [Hx Hl].
  rewrite (proj2 (String.eqb_neq t x) Hx). auto.
Qed.

Lemma occurrences_present t l : t ∈ l -> (1 <= occurrences t l)%nat.
Proof.
  unfold occurrences. induction l as [|x l IH]; intros Hin; [inversion Hin|].
  simpl. destruct (String.eqb_spec t x) as [->|Hx]; simpl; [lia|].
  apply elem_of_cons in Hin as [?|?]; [congruence | auto].
Qed.

Lemma occurrences_self t : occurrences t [t] = 1%nat.
Proof. unfold occurrences. simpl. rewrite String.eqb_refl. reflexivity. Qed.

(** The invariant of the data model: [addSkill] keeps the skills distinct. *)
Lemma addSkill_NoDup skill r : NoDup (skills r) -> NoDup (skills (addSkill skill r)).
Proof.
  intros Hnd.
  destruct (decide (JS.trim skill = "")) as [Hempty|Hne];
    [rewrite addSkill_noop by auto; exact Hnd|].
  destruct (decide (JS.trim skill ∈ skills r)) as [Hin|Hnew];
    [rewrite addSkill_noop by auto; exact Hnd|].
  rewrite addSkill_appends by assumption. simpl.
  apply NoDup_app. repeat split; [exact Hnd | | apply NoDup_singleton].
  intros x Hx Hx'. apply list_elem_of_singleton in Hx'. congruence.
Qed.

(** A second call with the same trimmed text changes nothing. *)
Lemma addSkill_idempotent s1 s2 r :
  JS.trim s1 = JS.trim s2 -> addSkill s2 (addSkill s1 r) = addSkill s1 r.
Proof.
  intros Hsame.
  destruct (decide (JS.trim s1 = "")) as [Hempty|Hne].
  { rewrite (addSkill_noop s1) by auto. apply addSkill_noop. left. congruence. }
  destruct (decide (JS.trim s1 ∈ skills r)) as [Hin|Hnew].
  { rewrite (addSkill_noop s1) by auto. apply addSkill_noop. right. congruence. }
  apply addSkill_noop. right. rewrite <- Hsame, addSkill_appends by assumption.
  simpl. apply elem_of_app. right. apply list_elem_of_here.
Qed.

(** C3: [addSkill] trims its argument; a trimmed text that is non-empty and
    not yet among the skills (compared exactly, case and all) is appended,
    anything else leaves the record as it is.  Hence a second call with the
    same trimmed text changes nothing, after the two calls the list holds
    the text exactly once (when it held it at most once before, as a list
    of distinct skills does), and [addSkill ""] and [addSkill "   "] change
    nothing. *)
Theorem addSkill_trims_and_rejects_duplicates :
  (forall skill r,
     (JS.trim skill <> "" -> JS.trim skill ∉ skills r ->
      addSkill skill r = withSkills (skills r ++ [JS.trim skill]) r) /\
     (JS.trim skill = "" \/ JS.trim skill ∈ skills r -> addSkill skill r = r)) /\
  (forall s1 s2 r,
     JS.trim s1 = JS.trim s2 ->
     addSkill s2 (addSkill s1 r) = addSkill s1 r /\
     (JS.trim s1 <> "" ->
      (occurrences (JS.trim s1) (skills r) <= 1)%nat ->
      occurrences (JS.trim s1) (skills (addSkill s2 (addSkill s1 r))) = 1%nat)) /\
  (forall r, addSkill "" r = r /\ addSkill "   " r = r).
Proof.
  split; [|split].
  - intros skill r. split; [apply addSkill_appends | apply addSkill_noop].
  - intros s1 s2 r Hsame. split; [apply addSkill_idempotent, Hsame|].
    intros Hne Hocc. rewrite addSkill_idempotent by exact Hsame.
    destruct (decide (JS.trim s1 ∈ skills r)) as [Hin|Hnew].
    + rewrite (addSkill_noop s1) by auto.
      pose proof (occurrences_present _ _ Hin). lia.
    + rewrite (addSkill_appends s1) by assumption. simpl.
      rewrite occurrences_app, occurrences_self, occurrences_absent by assumption.
      reflexivity.
  - intros r. split; reflexivity.
Qed.

Lemma addSkill_trims_and_rejects_duplicates_witness :
  occurrences "Python"
    (skills (addSkill "Python " (addSkill " Python" initialResumeData))) = 1%nat /\
  addSkill "python" (addSkill "Python" initialResumeData)
    = withSkills ["Python"; "python"] initialResumeData.
Proof.
  destruct addSkill_trims_and_rejects_duplicates as (Hone & Htwice & _).
  split.
  - apply (Htwice " Python" "Python " initialResumeData);
      [reflexivity | discriminate | vm_compute; lia].
  - rewrite (proj1 (Hone "python" _)); [reflexivity | discriminate |].
    vm_compute. intros Hin. apply list_elem_of_singleton in Hin. discriminate.
Defined.

(** ** Index out of range *)

Lemma normalizeProjects_present r l : projects r = Some l -> normalizeProjects r = r.
Proof. destruct r as [pi ex ed sk pr]. simpl. intros ->. reflexivity. Qed.

Lemma record_eta r :
  {| personalInfo := personalInfo r; experience := experience r;
     education := education r; skills := skills r; projects := projects r |} = r.
Proof. destruct r. reflexivity. Qed.

(** C7, as the code has it: with an index that is not a position of the
    list, the update and the removal of an experience, of an education and
    the removal of a skill return the record they were given, and the update
    and the removal of a project return it with the projects list it reads,
    that is unchanged when the list is present and with an empty list in
    place of an absent one.  All of them are total functions: nothing
    throws. *)
Theorem out_of_range_index_changes_nothing :
  forall index field value r,
    (inRange index (length (experience r)) = false ->
       updateExperience index field value r = r /\
       removeExperience index r = r) /\
    (inRange index (length (education r)) = false ->
       updateEducation index field value r = r /\
       removeEducation index r = r) /\
    (inRange index (length (skills r)) = false -> removeSkill index r = r) /\
    (inRange index (length (JS.orEmpty (projects r))) = false ->
       updateProject index field value r = normalizeProjects r /\
       removeProject index r = normalizeProjects r /\
       (projects r <> None -> normalizeProjects r = r)).
Proof.
  intros index field value r.
  split; [|split; [|split]]; intros Hout;
    [split | split | | split; [|split]].
  - unfold updateExperience. rewrite Array_map_out_of_range by assumption.
    apply record_eta.
  - unfold removeExperience. rewrite Array_filter_out_of_range by assumption.
    apply record_eta.
  - unfold updateEducation. rewrite Array_map_out_of_range by assumption.
    apply record_eta.
  - unfold removeEducation. rewrite Array_filter_out_of_range by assumption.
    apply record_eta.
  - unfold removeSkill. rewrite Array_filter_out_of_range by assumption.
    apply record_eta.
  - unfold updateProject. rewrite Array_map_out_of_range by assumption.
    reflexivity.
  - unfold removeProject. rewrite Array_filter_out_of_range by assumption.
    reflexivity.
  - intros Hsome. destruct (projects r) as [l|] eqn:Hp; [|congruence].
    eapply normalizeProjects_present, Hp.
Qed.

Lemma out_of_range_index_changes_nothing_witness :
  updateExperience 1 "title" "Lead" sampleFullRecord = sampleFullRecord /\
  removeExperience (-1) sampleFullRecord = sampleFullRecord /\
  removeSkill 7 sampleFullRecord = sampleFullRecord /\
  removeProject 1 sampleFullRecord = sampleFullRecord.
Proof.
  split; [|split; [|split]].
  - destruct (out_of_range_index_changes_nothing 1 "title" "Lead" sampleFullRecord)
      as (Hexp & _).
    apply Hexp. reflexivity.
  - destruct (out_of_range_index_changes_nothing (-1) "" "" sampleFullRecord)
      as (Hexp & _).
    apply Hexp. reflexivity.
  - destruct (out_of_range_index_changes_nothing 7 "" "" sampleFullRecord)
      as (_ & _ & Hskill & _).
    apply Hskill. reflexivity.
  - destruct (out_of_range_index_changes_nothing 1 "" "" sampleFullRecord)
      as (_ & _ & _ & Hproj).
    destruct (Hproj eq_refl) as (_ & -> & Hsame).
    apply Hsame. discriminate.
Defined.

(** C7, as stated, fails on a record whose projects list is absent: the
    removal at an index out of range returns a record with an empty projects
    list, not the record it was given. *)
Lemma out_of_range_removeProject_fills_absent_projects :
  inRange 0 (length (JS.orEmpty (projects recordWithoutProjects))) = false /\
  removeProject 0 recordWithoutProjects <> recordWithoutProjects /\
  updateProject 0 "name" "x" recordWithoutProjects <> recordWithoutProjects.
Proof. repeat split; discriminate. Qed.

(** ** The shape of personalInfo *)

(** C9, as the code has it: [handlePersonalInfoChange field value] sets the
    property [field] of personalInfo to [value] and leaves every other
    property and every other member of the record as it was; the properties
    afterwards are those before plus [field].  So a personalInfo with
    exactly the seven named properties keeps exactly those when [field] is
    one of the seven. *)
Theorem handlePersonalInfoChange_sets_one_property :
  (forall field value r,
     personalInfo (handlePersonalInfoChange field value r) !! field = Some value /\
     (forall k, k <> field ->
        personalInfo (handlePersonalInfoChange field value r) !! k
          = personalInfo r !! k) /\
     dom (personalInfo (handlePersonalInfoChange field value r))
       = {[field]} ∪ dom (personalInfo r) /\
     experience (handlePersonalInfoChange field value r) = experience r /\
     education (handlePersonalInfoChange field value r) = education r /\
     skills (handlePersonalInfoChange field value r) = skills r /\
     projects (handlePersonalInfoChange field value r) = projects r) /\
  (forall field value r,
     field ∈ personalFields ->
     dom (personalInfo r) = list_to_set personalFields ->
     dom (personalInfo (handlePersonalInfoChange field value r))
       = list_to_set personalFields).
Proof.
  split.
  - intros field value r. simpl. repeat split.
    + apply lookup_insert_eq.
    + intros k Hk. apply lookup_insert_ne. congruence.
    + apply dom_insert_L.
  - intros field value r Hfield Hdom.
    unfold handlePersonalInfoChange; cbn [personalInfo].
    rewrite dom_insert_L, Hdom.
    apply subseteq_union_1_L. rewrite singleton_subseteq_l, elem_of_list_to_set.
    exact Hfield.
Qed.

Lemma handlePersonalInfoChange_sets_one_property_witness :
  dom (personalInfo (handlePersonalInfoChange "email" "ada@example.org"
                       initialResumeData))
    = list_to_set personalFields.
Proof.
  apply (proj2 handlePersonalInfoChange_sets_one_property).
  - unfold personalFields. apply elem_of_cons. right. apply list_elem_of_here.
  - unfold initialResumeData, obj, personalFields. simpl.
    rewrite !dom_insert_L, dom_empty_L. reflexivity.
Defined.

(** C9, as stated, fails for a field name outside the seven: the handler
    takes any string and adds it to personalInfo as an eighth property. *)
Lemma handlePersonalInfoChange_adds_unknown_property :
  dom (personalInfo initialResumeData) = list_to_set personalFields /\
  dom (personalInfo (handlePersonalInfoChange "nickname" "Al" initialResumeData))
    <> list_to_set personalFields /\
  personalInfo (handlePersonalInfoChange "nickname" "Al" initialResumeData)
    !! "nickname" = Some "Al".
Proof.
  split; [|split].
  - refine (bool_decide_unpack _ _). vm_compute. exact I.
  - intros Hsame. apply (bool_decide_pack _) in Hsame.
    vm_compute in Hsame. exact Hsame.
  - reflexivity.
Qed.

(** ** Timers and the save *)

(** A change after which the component renders arms the timer anew. *)
Lemma change_arms_timer f c :
  mounted c = true ->
  renderThrows (activeSection c) (f (resumeData c)) = false ->
  autosaveTimer (change f c)
    = Some {| due := now c + 2000; captured := f (resumeData c) |} /\
  resumeData (change f c) = f (resumeData c) /\
  setItemCalls (change f c) = setItemCalls c /\
  now (change f c) = now c /\
  mounted (change f c) = true /\
  activeSection (change f c) = activeSection c.
Proof.
  intros Hm Hr. unfold change, setResumeData. rewrite Hm, Hr. repeat split.
Qed.

(** A change after which the render throws unmounts the component: no timer
    is left. *)
Lemma change_unmounts f c :
  renderThrows (activeSection c) (f (resumeData c)) = true ->
  autosaveTimer (change f c) = None /\
  mounted (change f c) = false /\
  resumeData (change f c) = f (resumeData c) /\
  setItemCalls (change f c) = setItemCalls c.
Proof.
  intros Hr. unfold change, setResumeData. rewrite Hr, andb_false_r.
  repeat split.
Qed.

Lemma advance_frame t c :
  mounted (advance t c) = mounted c /\
  activeSection (advance t c) = activeSection c.
Proof.
  unfold advance. destruct (autosaveTimer c) as [timer|]; [|split; reflexivity].
  destruct (due timer <=? t); [|split; reflexivity].
  unfold saveToLocalStorage. destruct (setItem _ _ _); split; reflexivity.
Qed.

(** No save is due by [t]: time passes and nothing is written. *)
Lemma advance_quiet t c :
  (forall timer, autosaveTimer c = Some timer -> t < due timer) ->
  autosaveTimer (advance t c) = autosaveTimer c /\
  resumeData (advance t c) = resumeData c /\
  setItemCalls (advance t c) = setItemCalls c /\
  now (advance t c) = Z.max t (now c).
Proof.
  intros Hquiet. unfold advance.
  destruct (autosaveTimer c) as [timer|] eqn:Htimer.
  - specialize (Hquiet timer eq_refl).
    rewrite (proj2 (Z.leb_gt _ _) Hquiet). simpl. rewrite Htimer. repeat split.
  - simpl. rewrite Htimer. repeat split.
Qed.

(** The pending save is due by [t]: it runs once, at its due time (or now,
    when that is later), on the record its callback closed over, and no
    timer of the autosave is pending afterwards. *)
Lemma advance_fires t c timer :
  autosaveTimer c = Some timer -> due timer <= t ->
  autosaveTimer (advance t c) = None /\
  resumeData (advance t c) = resumeData c /\
  setItemCalls (advance t c)
    = setItemCalls c ++
        [(Z.max (due timer) (now c), storageKey, JSON.stringify (toJS (captured timer)))].
Proof.
  intros Htimer Hdue. unfold advance. rewrite Htimer.
  rewrite (proj2 (Z.leb_le _ _) Hdue). unfold saveToLocalStorage.
  destruct (setItem _ _ _); simpl; repeat split.
Qed.

Lemma onAddSkill_record skill c :
  resumeData (onAddSkill skill c) = addSkill skill (resumeData c).
Proof.
  unfold onAddSkill, addSkill, addSkillIn, change, setResumeData.
  destruct (JS.truthy _ && negb _)%bool; [|reflexivity].
  destruct (mounted c && negb _)%bool; reflexivity.
Qed.

(** Once the component is unmounted nothing is ever written again. *)
Lemma advance_unmounted t c :
  autosaveTimer c = None ->
  setItemCalls (advance t c) = setItemCalls c /\
  autosaveTimer (advance t c) = None.
Proof.
  intros Hnone.
  destruct (advance_quiet t c) as (Ha & _ & Hc & _).
  - intros timer Heq. rewrite Hnone in Heq. discriminate.
  - split; [exact Hc | rewrite Ha; exact Hnone].
Qed.

(** C8: when [localStorage.setItem] throws, the save shows the error
    toast, leaves [isSaving] false, sets no timer (the pending ones are the
    ones there were), does not touch [lastSaved], the record or the store.
    When it was the autosave timer that ran the save, no autosave timer is
    pending afterwards: nothing retries until the next change arms it. *)
Theorem rejected_write_is_contained :
  (forall data c,
     setItem storageKey (JSON.stringify (toJS data)) (localStorage c) = None ->
     let c' := saveToLocalStorage data c in
     toasts c' = toasts c ++ [ToastError "Failed to save data"] /\
     isSaving c' = false /\
     autosaveTimer c' = autosaveTimer c /\
     savingTimers c' = savingTimers c /\
     lastSaved c' = lastSaved c /\
     resumeData c' = resumeData c /\
     localStorage c' = localStorage c) /\
  (forall timer t c,
     autosaveTimer c = Some timer -> due timer <= t ->
     setItem storageKey (JSON.stringify (toJS (captured timer))) (localStorage c)
       = None ->
     let c' := advance t c in
     toasts c' = toasts c ++ [ToastError "Failed to save data"] /\
     isSaving c' = false /\
     autosaveTimer c' = None /\
     (forall d, d ∈ savingTimers c' -> d ∈ savingTimers c) /\
     lastSaved c' = lastSaved c /\
     resumeData c' = resumeData c /\
     localStorage c' = localStorage c).
Proof.
  split.
  - intros data c Hthrows. unfold saveToLocalStorage. rewrite Hthrows.
    repeat split.
  - intros timer t c Htimer Hdue Hthrows. unfold advance.
    rewrite Htimer, (proj2 (Z.leb_le _ _) Hdue).
    unfold saveToLocalStorage. simpl. rewrite Hthrows. simpl.
    repeat split.
    + destruct (existsb _ _); reflexivity.
    + intros d Hd. apply list_elem_of_In, List.filter_In in Hd as [Hd _].
      apply List.filter_In in Hd as [Hd _]. apply list_elem_of_In, Hd.
Qed.

Lemma rejected_write_is_contained_witness :
  let c := change (handlePersonalInfoChange "name" "Ada") (firstRender fullStorage 0) in
  toasts (advance 2000 c) = [ToastError "Failed to save data"] /\
  isSaving (advance 2000 c) = false /\
  autosaveTimer (advance 2000 c) = None /\
  lastSaved (advance 2000 c) = None /\
  resumeData (advance 2000 c) = resumeData c /\
  toasts (saveNow c) = [ToastError "Failed to save data"].
Proof.
  intros c.
  destruct (proj2 rejected_write_is_contained
              {| due := 2000;
                 captured := handlePersonalInfoChange "name" "Ada" initialResumeData |}
              2000 c eq_refl ltac:(simpl; lia) eq_refl)
    as (Ht & Hs & Ha & _ & Hl & Hr & _).
  destruct (proj1 rejected_write_is_contained (resumeData c) c eq_refl)
    as (Ht' & _).
  repeat split; assumption.
Defined.

(** ** Sequences of calls on the experience list *)

Lemma lookup_mapFrom {A B} (f : A -> nat -> B) l i k :
  JS.mapFrom f i l !! k = (fun x => f x (i + k)%nat) <$> l !! k.
Proof.
  revert i k. induction l as [|x l IH]; intros i k; [reflexivity|].
  destruct k as [|k]; simpl.
  - rewrite Nat.add_0_r. reflexivity.
  - rewrite IH. f_equal. apply (f_equal (fun n => fun x => f x n)). lia.
Qed.

Lemma lookup_Array_map {A B} (f : A -> nat -> B) l k :
  JS.Array_map f l !! k = (fun x => f x k) <$> l !! k.
Proof. apply lookup_mapFrom. Qed.

Lemma elem_of_filterFrom {A} (p : A -> nat -> bool) l i x :
  x ∈ JS.filterFrom p i l -> x ∈ l.
Proof.
  revert i. induction l as [|y l IH]; intros i; simpl; [trivial|].
  destruct (p y i); rewrite ?elem_of_cons; intros H; [destruct H|]; eauto.
Qed.

Lemma filterFrom_fmap {A B} (g : A -> B) (p : nat -> bool) l i :
  g <$> JS.filterFrom (fun _ j => p j) i l = JS.filterFrom (fun _ j => p j) i (g <$> l).
Proof.
  revert i. induction l as [|y l IH]; intros i; simpl; [reflexivity|].
  destruct (p i); simpl; rewrite IH; reflexivity.
Qed.

Lemma filterFrom_NoDup {A} (p : A -> nat -> bool) l i :
  NoDup l -> NoDup (JS.filterFrom p i l).
Proof.
  revert i. induction l as [|y l IH]; intros i Hnd; simpl; [constructor|].
  apply NoDup_cons in Hnd as [Hy Hl].
  destruct (p y i); [|auto].
  apply NoDup_cons. split; [|auto].
  intros Hin. apply Hy. eapply elem_of_filterFrom, Hin.
Qed.

(** A removal at a position of the list takes exactly one entry away. *)
Lemma filterFrom_notAt_hit {A} index (l : list A) i :
  Z.of_nat i <= index < Z.of_nat (i + length l) ->
  S (length (JS.filterFrom (notAt index) i l)) = length l.
Proof.
  revert i. induction l as [|y l IH]; intros i Hin; cbn [length] in *; [lia|].
  cbn [JS.filterFrom]. unfold notAt at 1.
  destruct (JS.strictEq i index) eqn:Heq; cbn [negb length].
  - apply strictEq_true in Heq. rewrite filterFrom_notAt_miss by lia. reflexivity.
  - apply strictEq_false in Heq. rewrite IH by lia. reflexivity.
Qed.

Lemma removeExperience_length index r :
  (length (experience (removeExperience index r))
   + (if inRange index (length (experience r)) then 1 else 0)
   = length (experience r))%nat.
Proof.
  unfold removeExperience; simpl.
  destruct (inRange index (length (experience r))) eqn:Hr.
  - apply inRange_true in Hr.
    pose proof (filterFrom_notAt_hit index (experience r) 0) as Hhit.
    unfold JS.Array_filter. simpl in Hhit. lia.
  - rewrite Array_filter_out_of_range by assumption. lia.
Qed.

Lemma applyCalls_length calls r :
  (length (experience (applyCalls calls r)) + countRemovesInRange calls r
   = length (experience r) + countAdds calls)%nat.
Proof.
  unfold countAdds, applyCalls.
  revert r. induction calls as [|call calls IH]; intros r; simpl; [lia|].
  specialize (IH (applyCall r call)).
  destruct call as [|index field value|index]; simpl in *.
  - rewrite length_app in IH. simpl in IH. lia.
  - unfold JS.Array_map in IH. rewrite mapFrom_length in IH. lia.
  - pose proof (removeExperience_length index r) as Hrem. simpl in Hrem. lia.
Qed.

Lemma applyCalls_snoc calls call r :
  applyCalls (calls ++ [call]) r = applyCall (applyCalls calls r) call.
Proof. unfold applyCalls. rewrite fold_left_app. reflexivity. Qed.

Lemma trackCalls_snoc calls call r :
  trackCalls (calls ++ [call]) r = trackCall (trackCalls calls r) call.
Proof. unfold trackCalls. rewrite fold_left_app. reflexivity. Qed.

Lemma mapFrom_tag_snd {A} (l : list A) i :
  (JS.mapFrom (fun e j => (j, e)) i l).*2 = l.
Proof. revert i. induction l as [|x l IH]; intros i; simpl; [|rewrite IH]; reflexivity. Qed.

Lemma mapFrom_tag_fst {A} (l : list A) i :
  (JS.mapFrom (fun e j => (j, e)) i l).*1 = seq i (length l).
Proof. revert i. induction l as [|x l IH]; intros i; simpl; [|rewrite IH]; reflexivity. Qed.

Lemma mapFrom_tagged_snd (g : gmap string string -> nat -> gmap string string)
  (l : list (nat * gmap string string)) i :
  (JS.mapFrom (fun te j => (te.1, g te.2 j)) i l).*2 = JS.mapFrom g i (l.*2).
Proof. revert i. induction l as [|x l IH]; intros i; simpl; [|rewrite IH]; reflexivity. Qed.

Lemma mapFrom_tagged_fst (g : gmap string string -> nat -> gmap string string)
  (l : list (nat * gmap string string)) i :
  (JS.mapFrom (fun te j => (te.1, g te.2 j)) i l).*1 = l.*1.
Proof. revert i. induction l as [|x l IH]; intros i; simpl; [|rewrite IH]; reflexivity. Qed.

(** The tags are invisible: forgetting them gives the list of the
    component. *)
Lemma trackCalls_erase calls r :
  (tagged (trackCalls calls r)).*2 = experience (applyCalls calls r).
Proof.
  induction calls as [|call calls IH] using rev_ind.
  - apply mapFrom_tag_snd.
  - rewrite trackCalls_snoc, applyCalls_snoc.
    destruct call as [|index field value|index]; simpl.
    + rewrite fmap_app, IH. reflexivity.
    + unfold JS.Array_map. rewrite mapFrom_tagged_snd, IH. reflexivity.
    + unfold JS.Array_filter, notAt.
      rewrite (filterFrom_fmap snd (fun j => negb (JS.strictEq j index))), IH.
      reflexivity.
Qed.

Lemma lastWrite_snoc tag field h w :
  lastWrite tag field (h ++ [w])
    = if (Nat.eqb (target w) tag && String.eqb (writtenField w) field)%bool
      then Some (writtenValue w)
      else lastWrite tag field h.
Proof.
  induction h as [|x h IH]; simpl; [reflexivity|].
  rewrite IH.
  destruct (Nat.eqb (target w) tag && String.eqb (writtenField w) field)%bool;
    reflexivity.
Qed.

Lemma lastWrite_fresh tag field h n :
  (forall w, w ∈ h -> (target w < n)%nat) -> (n <= tag)%nat ->
  lastWrite tag field h = None.
Proof.
  intros Hbound Hn. induction h as [|x h IH]; simpl; [reflexivity|].
  rewrite IH by (intros w Hw; apply Hbound; right; exact Hw).
  pose proof (Hbound x ltac:(left)) as Hx.
  destruct (Nat.eqb_spec (target x) tag); [lia | reflexivity].
Qed.

Lemma entryAt_lookup {A} index (l : list A) k :
  Z.of_nat k = index -> entryAt index l = l !! k.
Proof.
  intros <-. unfold entryAt.
  rewrite (proj2 (Z.leb_le 0 (Z.of_nat k))) by lia.
  rewrite Nat2Z.id. reflexivity.
Qed.

Lemma entryAt_Some {A} index (l : list A) x :
  entryAt index l = Some x -> l !! Z.to_nat index = Some x /\ 0 <= index.
Proof.
  unfold entryAt. destruct (Z.leb_spec 0 index); [auto | discriminate].
Qed.

Lemma trackStart_inv r : TrackInv r (trackStart r).
Proof.
  unfold trackStart. split; simpl.
  - intros tag. unfold JS.Array_map. rewrite mapFrom_tag_fst, elem_of_seq. lia.
  - unfold JS.Array_map. rewrite mapFrom_tag_fst. apply NoDup_seq.
  - lia.
  - intros w Hw. inversion Hw.
  - intros tag e field Hin.
    apply list_elem_of_lookup in Hin as [k Hk].
    rewrite lookup_Array_map in Hk.
    destruct (experience r !! k) as [e'|] eqn:He; simpl in Hk; [|discriminate].
    injection Hk as <- <-.
    unfold expected, origin. simpl. rewrite He. reflexivity.
Qed.

Lemma trackCall_inv r t call : TrackInv r t -> TrackInv r (trackCall t call).
Proof.
  intros [Hbound Hnd Hstart Hhist Hfields].
  destruct call as [|index field value|index]; split; simpl.
  - (* add *)
    intros tag. rewrite fmap_app, elem_of_app. simpl.
    intros [Hin|Hin%list_elem_of_singleton]; [apply Hbound in Hin|]; lia.
  - rewrite fmap_app. apply NoDup_app. split; [exact Hnd|]. split.
    + intros tag Hin Hnew%list_elem_of_singleton. apply Hbound in Hin.
      simpl in Hnew. lia.
    + apply NoDup_singleton.
  - lia.
  - intros w Hw. apply Hhist in Hw. lia.
  - intros tag e field. rewrite elem_of_app.
    intros [Hin|Hin%list_elem_of_singleton]; [apply Hfields, Hin|].
    injection Hin as -> ->. unfold expected.
    rewrite (lastWrite_fresh _ _ _ (nextTag t)) by (auto || lia).
    unfold origin. rewrite lookup_ge_None_2 by lia. reflexivity.
  - (* update *)
    unfold JS.Array_map. rewrite mapFrom_tagged_fst. exact Hbound.
  - unfold JS.Array_map. rewrite mapFrom_tagged_fst. exact Hnd.
  - exact Hstart.
  - intros w. rewrite elem_of_app. intros [Hw|Hw]; [auto|].
    destruct (entryAt index (tagged t)) as [te|] eqn:Hat; [|inversion Hw].
    apply list_elem_of_singleton in Hw as ->. simpl.
    apply entryAt_Some in Hat as [Hat _].
    apply Hbound, list_elem_of_fmap. exists te. split; [reflexivity|].
    eapply list_elem_of_lookup_2, Hat.
  - intros tag e' field' Hin.
    apply list_elem_of_lookup in Hin as [k Hk].
    rewrite lookup_Array_map in Hk.
    destruct (tagged t !! k) as [[tag0 e]|] eqn:Hte; simpl in Hk; [|discriminate].
    injection Hk as <- <-.
    assert (Hold : e !! field' = expected r (history t) tag0 field').
    { apply Hfields. eapply list_elem_of_lookup_2, Hte. }
    unfold setFieldAt. destruct (JS.strictEq k index) eqn:Heq.
    + apply strictEq_true in Heq.
      rewrite (entryAt_lookup index _ k Heq), Hte. simpl.
      unfold expected. rewrite lastWrite_snoc. simpl.
      rewrite Nat.eqb_refl. simpl.
      destruct (String.eqb_spec field field') as [->|Hne].
      * apply lookup_insert_eq.
      * rewrite lookup_insert_ne by exact Hne. exact Hold.
    + apply strictEq_false in Heq. rewrite Hold. unfold expected.
      destruct (entryAt index (tagged t)) as [[tag1 e1]|] eqn:Hat;
        [|rewrite app_nil_r; reflexivity].
      rewrite lastWrite_snoc. simpl.
      apply entryAt_Some in Hat as [Hat Hpos].
      destruct (Nat.eqb_spec tag1 tag0) as [->|Hne]; [|reflexivity].
      exfalso. apply Heq.
      assert (Hk : (tagged t).*1 !! k = Some tag0)
        by (rewrite list_lookup_fmap, Hte; reflexivity).
      assert (Hk' : (tagged t).*1 !! Z.to_nat index = Some tag0)
        by (rewrite list_lookup_fmap, Hat; reflexivity).
      pose proof (NoDup_lookup _ _ _ _ Hnd Hk Hk'). lia.
  - (* remove *)
    intros tag. unfold JS.Array_filter, notAt.
    rewrite (filterFrom_fmap fst (fun j => negb (JS.strictEq j index))).
    intros Hin%elem_of_filterFrom. auto.
  - unfold JS.Array_filter, notAt.
    rewrite (filterFrom_fmap fst (fun j => negb (JS.strictEq j index))).
    apply filterFrom_NoDup, Hnd.
  - exact Hstart.
  - exact Hhist.
  - intros tag e field Hin%elem_of_filterFrom. auto.
Qed.

Lemma trackCalls_inv calls r : TrackInv r (trackCalls calls r).
Proof.
  induction calls as [|call calls IH] using rev_ind.
  - apply trackStart_inv.
  - rewrite trackCalls_snoc. apply trackCall_inv, IH.
Qed.

(** C4, as the code has it: after any sequence of calls on a record whose
    experience list has n entries, the list has n plus the number of
    [addExperience] calls minus the number of [removeExperience] calls whose
    index was a position of the list when they were made (the others remove
    nothing); from an empty list, and when every removal was at a position,
    that is the number of adds minus the number of removes.  Every entry
    that is left holds, in each field, the value of the last update of that
    field that reached it, and what it entered the list with in the fields
    no update reached. *)
Theorem experience_calls_length_and_last_update :
  forall calls r,
    (length (experience (applyCalls calls r)) + countRemovesInRange calls r
     = length (experience r) + countAdds calls)%nat /\
    (experience r = [] -> countRemovesInRange calls r = countRemoves calls ->
     Z.of_nat (length (experience (applyCalls calls r)))
       = Z.of_nat (countAdds calls) - Z.of_nat (countRemoves calls)) /\
    (tagged (trackCalls calls r)).*2 = experience (applyCalls calls r) /\
    NoDup (tagged (trackCalls calls r)).*1 /\
    (forall tag e field,
       (tag, e) ∈ tagged (trackCalls calls r) ->
       e !! field = expected r (history (trackCalls calls r)) tag field).
Proof.
  intros calls r. pose proof (applyCalls_length calls r) as Hlen.
  destruct (trackCalls_inv calls r) as [_ Hnd _ _ Hfields].
  split; [exact Hlen|]. split; [|split; [apply trackCalls_erase|split; assumption]].
  intros Hempty Hall. rewrite Hempty in Hlen. simpl in Hlen. lia.
Qed.

Lemma experience_calls_length_and_last_update_witness :
  Z.of_nat (length (experience (applyCalls sampleCalls initialResumeData))) = 2 - 1 /\
  exists e,
    tagged (trackCalls sampleCalls initialResumeData) = [(1%nat, e)] /\
    e !! "title" = Some "Lead" /\ e !! "company" = Some "".
Proof.
  destruct (experience_calls_length_and_last_update sampleCalls initialResumeData)
    as (_ & Hlen & _ & _ & Hfields).
  split; [apply Hlen; reflexivity|].
  assert (Htagged : exists e,
            tagged (trackCalls sampleCalls initialResumeData) = [(1%nat, e)])
    by (eexists; vm_compute; reflexivity).
  destruct Htagged as [e He]. exists e. split; [exact He|].
  assert (Hin : (1%nat, e) ∈ tagged (trackCalls sampleCalls initialResumeData))
    by (rewrite He; apply list_elem_of_here).
  split; rewrite (Hfields 1%nat e _ Hin); vm_compute; reflexivity.
Defined.

(** C4, as stated, fails twice over: a record that starts with an entry has
    it without any add, and a removal at an index that is no position of
    the list removes nothing. *)
Lemma experience_length_is_not_adds_minus_removes :
  Z.of_nat (length (experience (applyCalls [] sampleFullRecord)))
    <> Z.of_nat (countAdds []) - Z.of_nat (countRemoves []) /\
  Z.of_nat (length (experience (applyCalls [CallRemove 0; CallAdd] initialResumeData)))
    <> Z.of_nat (countAdds [CallRemove 0; CallAdd])
       - Z.of_nat (countRemoves [CallRemove 0; CallAdd]).
Proof. split; vm_compute; discriminate. Qed.

(** ** JSON text: what is written parses back *)

Lemma parseChars_writeChar c k :
  JSON.parseChars (JSON.writeChar c k) = JSON.consChar c (JSON.parseChars k).
Proof.
  destruct c as [[] [] [] [] [] [] [] []]; reflexivity.
Qed.

Lemma parseChars_writeChars s k :
  JSON.parseChars (JSON.writeChars s (String JSON.dquote k)) = JSON.Parsed (s, k).
Proof.
  induction s as [|c s IH]; simpl; [reflexivity|].
  rewrite parseChars_writeChar, IH. reflexivity.
Qed.

Lemma parseString_writeString s k :
  JSON.parseString (JSON.writeString s k) = JSON.Parsed (s, k).
Proof. unfold JSON.writeString. apply parseChars_writeChars. Qed.

(** Induction on values, with the elements of arrays and the members of
    objects covered. *)
Lemma value_ind_nested (P : JSON.value -> Prop) :
  P JSON.Null ->
  (forall b, P (JSON.Bool b)) ->
  (forall s, P (JSON.Str s)) ->
  (forall l, Forall P l -> P (JSON.Arr l)) ->
  (forall ms, Forall (fun m => P m.2) ms -> P (JSON.Obj ms)) ->
  forall v, P v.
Proof.
  intros Hnull Hbool Hstr Harr Hobj.
  fix IH 1. intros [|b|s|l|ms].
  - apply Hnull.
  - apply Hbool.
  - apply Hstr.
  - apply Harr. induction l as [|x l IHl]; constructor; [apply IH | exact IHl].
  - apply Hobj. induction ms as [|m ms IHms]; constructor; [apply IH | exact IHms].
Qed.

(** The step functions on the first character of what [write] writes. *)
Lemma valueStep_string pv pe pm s1 :
  JSON.valueStep pv pe pm (String JSON.dquote s1)
    = JSON.bind (JSON.parseChars s1) (fun p => JSON.Parsed (JSON.Str p.1, p.2)).
Proof. reflexivity. Qed.

Lemma valueStep_array pv pe pm s1 :
  JSON.valueStep pv pe pm (String JSON.lbracket s1)
    = match JSON.expect JSON.rbracket s1 with
      | Some rest => JSON.Parsed (JSON.Arr [], rest)
      | None =>
          JSON.bind (pv s1) (fun x =>
          JSON.bind (pe x.2) (fun xs =>
          JSON.Parsed (JSON.Arr (x.1 :: xs.1), xs.2)))
      end.
Proof. reflexivity. Qed.

Lemma valueStep_object pv pe pm s1 :
  JSON.valueStep pv pe pm (String JSON.lbrace s1)
    = match JSON.expect JSON.rbrace s1 with
      | Some rest => JSON.Parsed (JSON.Obj [], rest)
      | None =>
          JSON.bind (JSON.parseString s1) (fun key =>
          match JSON.expect JSON.colon key.2 with
          | Some rest =>
              JSON.bind (pv rest) (fun x =>
              JSON.bind (pm x.2) (fun ms =>
              JSON.Parsed (JSON.Obj ((key.1, x.1) :: ms.1), ms.2)))
          | None => JSON.SyntaxError
          end)
      end.
Proof. reflexivity. Qed.

Lemma elementsStep_comma pv pe s1 :
  JSON.elementsStep pv pe (String JSON.comma s1)
    = JSON.bind (pv s1) (fun x =>
      JSON.bind (pe x.2) (fun xs => JSON.Parsed (x.1 :: xs.1, xs.2))).
Proof. reflexivity. Qed.

Lemma membersStep_comma pv pm s1 :
  JSON.membersStep pv pm (String JSON.comma s1)
    = JSON.bind (JSON.parseString s1) (fun key =>
      match JSON.expect JSON.colon key.2 with
      | Some rest =>
          JSON.bind (pv rest) (fun x =>
          JSON.bind (pm x.2) (fun ms =>
          JSON.Parsed ((key.1, x.1) :: ms.1, ms.2)))
      | None => JSON.SyntaxError
      end).
Proof. reflexivity. Qed.

Lemma expect_write_value c v k :
  c = JSON.rbracket \/ c = JSON.rbrace -> JSON.expect c (JSON.write v k) = None.
Proof.
  intros [-> | ->]; destruct v as [|[]|s|[|x l]|[|m ms]]; reflexivity.
Qed.

Lemma expect_writeString c s k :
  c = JSON.rbracket \/ c = JSON.rbrace ->
  JSON.expect c (JSON.writeString s k) = None.
Proof. intros [-> | ->]; reflexivity. Qed.

Lemma size_pos v : (1 <= JSON.size v)%nat.
Proof. destruct v; simpl; lia. Qed.

Lemma parseElements_write l :
  Forall parsesBack l ->
  forall fuel k,
    (S (fold_right (fun x n => S (JSON.size x + n)) 0 l) <= fuel)%nat ->
    JSON.parseElements fuel
      (fold_right (fun y rest => String JSON.comma (JSON.write y rest))
         (String JSON.rbracket k) l)
    = JSON.Parsed (l, k).
Proof.
  induction 1 as [|y l Hy _ IH]; intros [|fuel] k Hfuel; simpl in Hfuel; try lia.
  - reflexivity.
  - cbn [fold_right JSON.parseElements]. rewrite elementsStep_comma.
    rewrite Hy by lia. cbn [JSON.bind fst snd].
    rewrite IH by lia. reflexivity.
Qed.

Lemma parseMembers_write ms :
  Forall (fun m => parsesBack m.2) ms ->
  forall fuel k,
    (S (fold_right (fun m n => S (JSON.size m.2 + n)) 0 ms) <= fuel)%nat ->
    JSON.parseMembers fuel
      (fold_right
         (fun m rest =>
            String JSON.comma
              (JSON.writeString m.1 (String JSON.colon (JSON.write m.2 rest))))
         (String JSON.rbrace k) ms)
    = JSON.Parsed (ms, k).
Proof.
  induction 1 as [|[key y] ms Hy _ IH]; intros [|fuel] k Hfuel;
    simpl in Hfuel; try lia.
  - reflexivity.
  - cbn [fold_right JSON.parseMembers fst snd]. rewrite membersStep_comma.
    rewrite parseString_writeString. cbn [JSON.bind fst snd].
    change (JSON.expect JSON.colon (String JSON.colon ?r)) with (Some r).
    cbv beta iota.
    simpl in Hy. rewrite Hy by lia. cbn [JSON.bind fst snd].
    rewrite IH by lia. reflexivity.
Qed.

Lemma parseValue_write v : parsesBack v.
Proof.
  induction v as [|b|s|l Hl|ms Hms] using value_ind_nested;
    intros [|fuel] k Hfuel; simpl in Hfuel; try lia.
  - reflexivity.
  - destruct b; reflexivity.
  - cbn [JSON.parseValue JSON.write]. unfold JSON.writeString.
    rewrite valueStep_string, parseChars_writeChars. reflexivity.
  - destruct l as [|x xs]; [reflexivity|].
    apply Forall_cons in Hl as [Hx Hxs]. simpl in Hfuel.
    cbn [JSON.write JSON.parseValue]. rewrite valueStep_array.
    rewrite expect_write_value by auto.
    rewrite Hx by lia. cbn [JSON.bind fst snd].
    rewrite parseElements_write by (assumption || lia). reflexivity.
  - destruct ms as [|[key x] ms]; [reflexivity|].
    apply Forall_cons in Hms as [Hx Hms]. simpl in Hfuel, Hx.
    cbn [JSON.write JSON.parseValue fst snd]. rewrite valueStep_object.
    rewrite expect_writeString by auto.
    rewrite parseString_writeString. cbn [JSON.bind fst snd].
    change (JSON.expect JSON.colon (String JSON.colon ?r)) with (Some r).
    cbv beta iota.
    rewrite Hx by lia. cbn [JSON.bind fst snd].
    rewrite (parseMembers_write ms Hms) by lia. reflexivity.
Qed.

Lemma writeChar_length c k :
  (S (String.length k) <= String.length (JSON.writeChar c k))%nat.
Proof.
  unfold JSON.writeChar.
  repeat match goal with |- context [if ?b then _ else _] => destruct b end;
    simpl; lia.
Qed.

Lemma writeString_length s k :
  (2 + String.length k <= String.length (JSON.writeString s k))%nat.
Proof.
  unfold JSON.writeString. simpl.
  induction s as [|c s IH]; simpl; [lia|].
  pose proof (writeChar_length c (JSON.writeChars s (String JSON.dquote k))). lia.
Qed.

(** The text is at least as long as the fuel bound. *)
Lemma write_length v :
  forall k, (JSON.size v + String.length k <= String.length (JSON.write v k))%nat.
Proof.
  induction v as [|b|s|l Hl|ms Hms] using value_ind_nested; intros k.
  - simpl. lia.
  - destruct b; simpl; lia.
  - cbn [JSON.write JSON.size]. pose proof (writeString_length s k). lia.
  - destruct l as [|x xs]; [simpl; lia|].
    apply Forall_cons in Hl as [Hx Hxs]. cbn [JSON.write JSON.size fold_right].
    set (rest := fold_right _ (String _ _) xs).
    assert (Hrest : (S (fold_right (fun x n => S (JSON.size x + n)) 0 xs)
                     + String.length k <= String.length rest)%nat).
    { subst rest. induction Hxs as [|y ys Hy _ IH]; simpl; [lia|].
      specialize (Hy (fold_right (fun y rest => String JSON.comma (JSON.write y rest))
                        (String JSON.rbracket k) ys)). lia. }
    specialize (Hx rest). simpl. lia.
  - destruct ms as [|[key x] ms]; [simpl; lia|].
    apply Forall_cons in Hms as [Hx Hms]. cbn [JSON.write JSON.size fold_right fst snd].
    set (rest := fold_right _ (String _ _) ms).
    assert (Hrest : (S (fold_right (fun m n => S (JSON.size m.2 + n)) 0 ms)
                     + String.length k <= String.length rest)%nat).
    { subst rest. induction Hms as [|[key' y] ys Hy _ IH]; simpl; [lia|].
      simpl in Hy.
      set (tail := fold_right _ (String _ _) ys) in *.
      specialize (Hy tail).
      pose proof (writeString_length key' (String JSON.colon (JSON.write y tail))).
      simpl in *. lia. }
    specialize (Hx rest). simpl in Hx.
    pose proof (writeString_length key (String JSON.colon (JSON.write x rest))).
    simpl in *. lia.
Qed.

(** [JSON.parse (JSON.stringify v)] is [v]. *)
Lemma parse_stringify v : JSON.parse (JSON.stringify v) = JSON.Parsed v.
Proof.
  unfold JSON.parse, JSON.stringify.
  rewrite parseValue_write; [reflexivity|].
  pose proof (write_length v EmptyString). simpl in *. lia.
Qed.

(** ** Records as values: the cast undoes the encoding *)

Lemma elem_of_orderedMembers order o k v :
  (k, v) ∈ orderedMembers order o <-> o !! k = Some v.
Proof.
  unfold orderedMembers. rewrite elem_of_app, list_elem_of_omap, list_elem_of_filter.
  rewrite elem_of_map_to_list. simpl. split.
  - intros [(k' & Hk' & Heq)|[_ Hl]]; [|exact Hl].
    destruct (o !! k') as [v'|] eqn:Hv; simpl in Heq; [|discriminate].
    injection Heq as <- <-. exact Hv.
  - intros Hl. destruct (decide (k ∈ order)) as [Hin|Hout]; [left|right; auto].
    exists k. rewrite Hl. auto.
Qed.

Lemma omap_members_NoDup order (o : gmap string string) :
  NoDup order -> NoDup (omap (fun k => pair k <$> o !! k) order).
Proof.
  induction 1 as [|k order Hk _ IH]; simpl; [constructor|].
  destruct (o !! k) as [v|]; simpl; [|exact IH].
  constructor; [|exact IH].
  intros Hin. apply list_elem_of_omap in Hin as (k' & Hk' & Heq).
  destruct (o !! k'); simpl in Heq; [|discriminate].
  injection Heq as -> _. contradiction.
Qed.

Lemma orderedMembers_NoDup order o :
  NoDup order -> NoDup (orderedMembers order o).*1.
Proof.
  intros Hnd. apply NoDup_fmap_fst.
  - intros k v1 v2 H1%elem_of_orderedMembers H2%elem_of_orderedMembers. congruence.
  - unfold orderedMembers. apply NoDup_app. split; [apply omap_members_NoDup, Hnd|].
    split; [|apply NoDup_filter, NoDup_map_to_list].
    intros [k v] Hin Hin'.
    apply list_elem_of_omap in Hin as (k' & Hk' & Heq).
    destruct (o !! k'); simpl in Heq; [|discriminate]. injection Heq as -> _.
    apply list_elem_of_filter in Hin' as [Hout _]. simpl in Hout. contradiction.
Qed.

Lemma list_to_map_orderedMembers order (o : gmap string string) :
  NoDup order -> list_to_map (reverse (orderedMembers order o)) = o.
Proof.
  intros Hnd.
  rewrite <- (list_to_map_proper (orderedMembers order o))
    by (apply orderedMembers_NoDup, Hnd || (symmetry; apply reverse_Permutation)).
  apply map_eq. intros k. apply option_eq. intros v.
  rewrite <- elem_of_list_to_map by apply orderedMembers_NoDup, Hnd.
  apply elem_of_orderedMembers.
Qed.

Lemma asObj_objToJS order o : NoDup order -> asObj (objToJS order o) = Some o.
Proof.
  intros Hnd. unfold asObj, objToJS. rewrite <- fmap_reverse.
  rewrite (mapM_fmap_Some _ (fun kv : string * string => (kv.1, JSON.Str kv.2)))
    by (intros [k v]; reflexivity).
  simpl. f_equal. apply list_to_map_orderedMembers, Hnd.
Qed.

Lemma asArrayOf_objsToJS order l :
  NoDup order -> asArrayOf asObj (objsToJS order l) = Some l.
Proof. intros Hnd. apply mapM_fmap_Some. intros o. apply asObj_objToJS, Hnd. Qed.

Lemma asArrayOf_strings l : asArrayOf asString (JSON.Arr (JSON.Str <$> l)) = Some l.
Proof. apply mapM_fmap_Some. reflexivity. Qed.

Lemma fields_NoDup :
  NoDup personalFields /\ NoDup experienceFields /\
  NoDup educationFields /\ NoDup projectFields.
Proof. repeat split; refine (bool_decide_unpack _ _); vm_compute; exact I. Qed.

Lemma fromJS_toJS r : fromJS (toJS r) = Some r.
Proof.
  destruct fields_NoDup as (Hp & Hx & He & Hj).
  destruct r as [pi ex ed sk [pr|]]; unfold fromJS, toJS;
    cbn -[asObj asArrayOf asString objToJS objsToJS personalFields
          experienceFields educationFields projectFields];
    rewrite (asObj_objToJS _ _ Hp), (asArrayOf_objsToJS _ _ Hx),
      (asArrayOf_objsToJS _ _ He), ?(asArrayOf_objsToJS _ _ Hj);
    cbn [mbind option_bind];
    rewrite asArrayOf_strings; reflexivity.
Qed.

Lemma stringify_toJS_truthy r : JS.truthy (JSON.stringify (toJS r)) = true.
Proof. reflexivity. Qed.

(** What [loadFromLocalStorage] does when the store holds a text that
    parses to a record. *)
Lemma load_parsed_record saved v data c :
  getItem storageKey (localStorage c) = Some saved ->
  saved <> "" -> JSON.parse saved = JSON.Parsed v -> fromJS v = Some data ->
  loadFromLocalStorage c
    = LoadedState (addToast (ToastSuccess "Previous data loaded")
                     (setResumeData data c)).
Proof.
  intros Hstored Hne Hparse Hcast. unfold loadFromLocalStorage.
  rewrite Hstored, (proj2 (truthy_true saved) Hne), Hparse, Hcast. reflexivity.
Qed.

(** What [loadFromLocalStorage] does when the store holds the text of a
    record. *)
Lemma load_stored_record data c :
  getItem storageKey (localStorage c) = Some (JSON.stringify (toJS data)) ->
  loadFromLocalStorage c
    = LoadedState (addToast (ToastSuccess "Previous data loaded")
                     (setResumeData data c)).
Proof.
  intros Hstored. unfold loadFromLocalStorage.
  rewrite Hstored, stringify_toJS_truthy, parse_stringify, fromJS_toJS.
  reflexivity.
Qed.

Lemma setResumeData_record data c : resumeData (setResumeData data c) = data.
Proof. unfold setResumeData. destruct (mounted c && negb _)%bool; reflexivity. Qed.

Lemma save_stores_text data c store :
  setItem storageKey (JSON.stringify (toJS data)) (localStorage c) = Some store ->
  getItem storageKey (localStorage (saveToLocalStorage data c))
    = Some (JSON.stringify (toJS data)).
Proof.
  intros Hset. unfold saveToLocalStorage. rewrite Hset. simpl.
  unfold setItem in Hset. destruct (accepts _ _ _ _); [|discriminate].
  injection Hset as <-. unfold getItem. simpl. apply lookup_insert_eq.
Qed.

(** C6: a save that the store accepts, followed by a load, puts the saved
    record back: the text written parses to the value that was written, and
    that value is the record. *)
Theorem save_then_load_restores_record :
  forall data c store,
    setItem storageKey (JSON.stringify (toJS data)) (localStorage c) = Some store ->
    (exists v, JSON.parse (JSON.stringify (toJS data)) = JSON.Parsed v /\
               fromJS v = Some data) /\
    exists c',
      loadFromLocalStorage (saveToLocalStorage data c) = LoadedState c' /\
      resumeData c' = data.
Proof.
  intros data c store Hset. split.
  - exists (toJS data). split; [apply parse_stringify | apply fromJS_toJS].
  - eexists. split.
    + apply load_stored_record. eapply save_stores_text, Hset.
    + apply setResumeData_record.
Qed.

Lemma save_then_load_restores_record_witness :
  exists c',
    loadFromLocalStorage
      (saveToLocalStorage sampleFullRecord (firstRender emptyStorage 0))
      = LoadedState c' /\
    resumeData c' = sampleFullRecord.
Proof.
  apply (save_then_load_restores_record sampleFullRecord
           (firstRender emptyStorage 0)
           {| items := {[ storageKey := JSON.stringify (toJS sampleFullRecord) ]};
              accepts := fun _ _ _ => true |}).
  unfold setItem. simpl. rewrite insert_empty. reflexivity.
Defined.

(** ** Absent projects *)

Lemma orEmpty_normalize r :
  JS.orEmpty (projects (normalizeProjects r)) = JS.orEmpty (projects r).
Proof. reflexivity. Qed.

(** C5, as the code has it: a load and an import install the record that
    was read as it is, an absent projects list included; the absent list is
    read as the empty one where it is used: the score and the three project
    handlers give on a record what they give on the record with the absent
    list replaced by the empty one. *)
Theorem read_boundary_keeps_record_as_read :
  (forall data c,
     getItem storageKey (localStorage c) = Some (JSON.stringify (toJS data)) ->
     exists c',
       loadFromLocalStorage c = LoadedState c' /\ resumeData c' = data) /\
  (forall data c, resumeData (onDataImported data c) = data) /\
  (forall r index field value,
     getCompletionPercentage r = getCompletionPercentage (normalizeProjects r) /\
     addProject r = addProject (normalizeProjects r) /\
     updateProject index field value r
       = updateProject index field value (normalizeProjects r) /\
     removeProject index r = removeProject index (normalizeProjects r)).
Proof.
  split; [|split].
  - intros data c Hstored. eexists. split; [apply load_stored_record, Hstored|].
    apply setResumeData_record.
  - intros data c. apply setResumeData_record.
  - intros r index field value. repeat split.
Qed.

Lemma read_boundary_keeps_record_as_read_witness :
  exists c',
    loadFromLocalStorage
      (firstRender
         {| items := {[ storageKey := JSON.stringify (toJS sampleFullRecord) ]};
            accepts := fun _ _ _ => true |} 0)
      = LoadedState c' /\
    resumeData c' = sampleFullRecord.
Proof.
  apply (proj1 read_boundary_keeps_record_as_read). apply lookup_singleton_eq.
Defined.

(** C5, as stated, fails: the text of a record without projects loads to a
    record without projects, and an imported record without projects stays
    without: nothing is normalized at the read boundary. *)
Lemma load_and_import_keep_projects_absent :
  (exists c',
     loadFromLocalStorage
       (firstRender
          {| items := {[ storageKey := JSON.stringify (toJS recordWithoutProjects) ]};
             accepts := fun _ _ _ => true |} 0)
       = LoadedState c' /\
     projects (resumeData c') = None) /\
  projects (resumeData (onDataImported recordWithoutProjects
                          (firstRender emptyStorage 0))) = None.
Proof.
  split; [|reflexivity].
  eexists. split; [apply load_stored_record, lookup_singleton_eq|reflexivity].
Qed.


(* ------------------------------------------------------------------ *)
(** ** The debounce, and the render that ends it *)

Lemma setResumeData_renders data c :
  mounted c = true -> renderThrows (activeSection c) data = false ->
  autosaveTimer (setResumeData data c)
    = Some {| due := now c + 2000; captured := data |} /\
  mounted (setResumeData data c) = true /\
  localStorage (setResumeData data c) = localStorage c /\
  setItemCalls (setResumeData data c) = setItemCalls c /\
  toasts (setResumeData data c) = toasts c /\
  now (setResumeData data c) = now c.
Proof.
  intros Hm Hr. unfold setResumeData. rewrite Hm, Hr. repeat split.
Qed.

Lemma setResumeData_throws data c :
  renderThrows (activeSection c) data = true ->
  autosaveTimer (setResumeData data c) = None /\
  mounted (setResumeData data c) = false /\
  localStorage (setResumeData data c) = localStorage c /\
  setItemCalls (setResumeData data c) = setItemCalls c /\
  toasts (setResumeData data c) = toasts c.
Proof.
  intros Hr. unfold setResumeData. rewrite Hr, andb_false_r. repeat split.
Qed.

Lemma changeAt_quiet c t f :
  mounted c = true ->
  renderThrows (activeSection c) (f (resumeData c)) = false ->
  now c <= t ->
  (forall timer, autosaveTimer c = Some timer -> t < due timer) ->
  autosaveTimer (changeAt c (t, f))
    = Some {| due := t + 2000; captured := f (resumeData c) |} /\
  resumeData (changeAt c (t, f)) = f (resumeData c) /\
  setItemCalls (changeAt c (t, f)) = setItemCalls c /\
  now (changeAt c (t, f)) = t /\
  mounted (changeAt c (t, f)) = true /\
  activeSection (changeAt c (t, f)) = activeSection c.
Proof.
  intros Hm Hrender Hnow Hquiet. unfold changeAt. simpl fst. simpl snd.
  destruct (advance_quiet t c Hquiet) as (_ & Hr & Hc & Hn).
  destruct (advance_frame t c) as (Hm1 & Hs1).
  destruct (change_arms_timer f (advance t c)) as (Ht' & Hr' & Hc' & Hn' & Hm' & Hs').
  { rewrite Hm1. exact Hm. }
  { rewrite Hs1, Hr. exact Hrender. }
  rewrite Ht', Hr', Hc', Hn', Hm', Hs', Hr, Hc, Hn, Hs1.
  replace (Z.max t (now c)) with t by lia. repeat split.
Qed.

(** A run of changes within the window, each of which renders, writes
    nothing and ends with one timer pending, due 2000 after the last change,
    on the last record. *)
Lemma run_within_window events :
  forall t0 f0 c,
    mounted c = true ->
    rendersAll (activeSection c) ((t0, f0) :: events) (resumeData c) ->
    now c <= t0 ->
    (forall timer, autosaveTimer c = Some timer -> t0 < due timer) ->
    withinWindow t0 events ->
    let c' := run ((t0, f0) :: events) c in
    autosaveTimer c'
      = Some {| due := lastTime t0 events + 2000;
                captured := applyChanges ((t0, f0) :: events) (resumeData c) |} /\
    resumeData c' = applyChanges ((t0, f0) :: events) (resumeData c) /\
    setItemCalls c' = setItemCalls c /\
    now c' = lastTime t0 events /\
    mounted c' = true.
Proof.
  induction events as [|[t1 f1] events IH];
    intros t0 f0 c Hm [Hrender Hrest] Hnow Hquiet Hwin; simpl in Hrender.
  - destruct (changeAt_quiet c t0 f0 Hm Hrender Hnow Hquiet)
      as (Ht & Hr & Hc & Hn & Hm' & _).
    cbv zeta. split; [exact Ht|]. split; [exact Hr|]. split; [exact Hc|].
    split; [exact Hn | exact Hm'].
  - destruct Hwin as [Ht1 Hwin]. simpl in Ht1.
    destruct (changeAt_quiet c t0 f0 Hm Hrender Hnow Hquiet)
      as (Ht & Hr & Hc & Hn & Hm' & Hs').
    assert (Hquiet1 : forall timer,
              autosaveTimer (changeAt c (t0, f0)) = Some timer -> t1 < due timer).
    { intros timer Heq. rewrite Ht in Heq. injection Heq as <-. simpl. lia. }
    assert (Hrest1 : rendersAll (activeSection (changeAt c (t0, f0)))
                       ((t1, f1) :: events) (resumeData (changeAt c (t0, f0)))).
    { rewrite Hs', Hr. exact Hrest. }
    specialize (IH t1 f1 (changeAt c (t0, f0)) Hm' Hrest1 ltac:(lia) Hquiet1 Hwin).
    cbv zeta in IH. rewrite Hr, Hc in IH. exact IH.
Qed.

Lemma textHolds_textOf data : textHolds (textOf data) data.
Proof.
  exists (toJS data). split; [apply parse_stringify | apply fromJS_toJS].
Qed.

(** C2: the code keeps this claim only as long as the component renders.
    Then every change replaces the pending save by one due 2000 later, and
    changes at 0, 500 and 1000 lead to exactly one write, at 3000, of a text
    that holds the record as of 1000.  But a change can make the render
    throw: a skill added in the skills section is shown with [X] (line 821),
    which the file does not import.  The component is then unmounted, the
    cleanup of the autosave effect clears the pending timer, and no write
    follows, whatever was typed before: with a name typed at 0 and at 500
    and the first skill added at 1000, nothing is written at 3000 nor
    ever. *)
Theorem autosave_debounce_unless_render_throws :
  (forall f0 f1 f2 c T,
     mounted c = true ->
     rendersAll (activeSection c) [(0, f0); (500, f1); (1000, f2)] (resumeData c) ->
     now c <= 0 ->
     (forall timer, autosaveTimer c = Some timer -> 0 < due timer) ->
     setItemCalls c = [] ->
     let c' := advance T (run [(0, f0); (500, f1); (1000, f2)] c) in
     (T < 3000 -> setItemCalls c' = []) /\
     (3000 <= T ->
      exists text,
        setItemCalls c' = [(3000, storageKey, text)] /\
        textHolds text (f2 (f1 (f0 (resumeData c)))))) /\
  (forall skill c T,
     mounted c = true -> activeSection c = SkillsSection ->
     JS.trim skill <> "" -> JS.trim skill ∉ skills (resumeData c) ->
     mounted (onAddSkill skill c) = false /\
     autosaveTimer (onAddSkill skill c) = None /\
     skills (resumeData (onAddSkill skill c))
       = skills (resumeData c) ++ [JS.trim skill] /\
     setItemCalls (advance T (onAddSkill skill c)) = setItemCalls c) /\
  (forall T, 1000 <= T ->
     setItemCalls (skillCrashScenario T) = [] /\
     mounted (skillCrashScenario T) = false /\
     personalInfo (resumeData (skillCrashScenario T)) !! "name" = Some "Ad" /\
     skills (resumeData (skillCrashScenario T)) = ["Python"]).
Proof.
  split; [|split].
  - intros f0 f1 f2 c T Hm Hrenders Hnow Hpending Hcalls c'.
    destruct (run_within_window [(500, f1); (1000, f2)] 0 f0 c Hm Hrenders Hnow
                Hpending) as (Ht & Hr & Hc & Hn & _).
    { simpl. lia. }
    subst c'. set (cr := run [(0, f0); (500, f1); (1000, f2)] c) in *.
    clearbody cr. cbn [lastTime applyChanges fold_left fst snd] in Ht, Hr, Hn.
    rewrite Hcalls in Hc. split.
    + intros HT.
      assert (Hq : forall timer, autosaveTimer cr = Some timer -> T < due timer).
      { intros timer Heq. rewrite Ht in Heq. injection Heq as <-. simpl. lia. }
      destruct (advance_quiet T cr Hq) as (_ & _ & -> & _). exact Hc.
    + intros HT. exists (textOf (f2 (f1 (f0 (resumeData c))))).
      split; [|apply textHolds_textOf].
      destruct (advance_fires T cr _ Ht) as (_ & _ & ->); [simpl; lia|].
      rewrite Hc, Hn. reflexivity.
  - intros skill c T Hm Hsec Hne Hnew.
    assert (Hguard : (JS.truthy (JS.trim skill)
                      && negb (JS.includes (skills (resumeData c)) (JS.trim skill)))%bool
                     = true).
    { unfold JS.includes.
      rewrite (proj2 (truthy_true _) Hne), (bool_decide_eq_false_2 _ Hnew).
      reflexivity. }
    assert (Hdata : addSkillIn (resumeData c) skill (resumeData c)
                    = withSkills (skills (resumeData c) ++ [JS.trim skill]) (resumeData c))
      by (apply addSkill_appends; assumption).
    assert (Hthrows : renderThrows (activeSection c)
                        (addSkillIn (resumeData c) skill (resumeData c)) = true).
    { rewrite Hsec, Hdata. unfold renderThrows, withSkills; cbn [skills].
      rewrite length_app. cbn [length]. apply Z.ltb_lt. lia. }
    destruct (change_unmounts (addSkillIn (resumeData c) skill) c Hthrows)
      as (Htimer & Hmounted & Hrecord & Hcalls).
    unfold onAddSkill. rewrite Hguard.
    split; [exact Hmounted|]. split; [exact Htimer|].
    split; [rewrite Hrecord, Hdata; reflexivity|].
    destruct (advance_unmounted T _ Htimer) as [-> _]. exact Hcalls.
  - intros T HT. unfold skillCrashScenario.
    set (c4 := onAddSkill "Python" _).
    assert (Htimer : autosaveTimer c4 = None) by (vm_compute; reflexivity).
    assert (Hcalls : setItemCalls c4 = []) by (vm_compute; reflexivity).
    destruct (advance_unmounted T c4 Htimer) as [Hc _].
    destruct (advance_quiet T c4) as (_ & Hr & _ & _);
      [intros timer Heq; rewrite Htimer in Heq; discriminate|].
    destruct (advance_frame T c4) as [Hm _].
    rewrite Hc, Hm, Hr. repeat split; vm_compute; reflexivity.
Qed.

Lemma autosave_debounce_unless_render_throws_witness :
  let c := setActiveSection SkillsSection (firstRender emptyStorage 0) in
  mounted c = true /\
  mounted (onAddSkill " Python " c) = false /\
  setItemCalls (advance 10000 (onAddSkill " Python " c)) = [].
Proof.
  intros c.
  destruct (proj1 (proj2 autosave_debounce_unless_render_throws) " Python " c 10000)
    as (Hm & _ & _ & Hc).
  - reflexivity.
  - reflexivity.
  - discriminate.
  - vm_compute. intros Hin. inversion Hin.
  - split; [reflexivity|]. split; [exact Hm | exact Hc].
Defined.

(** * Further properties of the component *)

(** ** Removal and update at a position *)

Lemma filterFrom_notAt_delete {A} (l : list A) i k :
  JS.filterFrom (notAt (Z.of_nat (i + k))) i l = delete k l.
Proof.
  revert i k. induction l as [|x l IH]; intros i k; [reflexivity|].
  cbn [JS.filterFrom]. unfold notAt at 1. destruct k as [|k].
  - replace (JS.strictEq i (Z.of_nat (i + 0))) with true
      by (symmetry; apply strictEq_true; lia).
    cbn [negb]. apply filterFrom_notAt_miss. lia.
  - replace (JS.strictEq i (Z.of_nat (i + S k))) with false
      by (symmetry; apply strictEq_false; lia).
    cbn [negb]. replace (i + S k)%nat with (S i + k)%nat by lia.
    rewrite IH. reflexivity.
Qed.

(** [filter ((_, i) => i !== index)] at a non-negative index is the list
    without its element at that position. *)
Lemma Array_filter_delete {A} (l : list A) index :
  0 <= index -> JS.Array_filter (notAt index) l = delete (Z.to_nat index) l.
Proof.
  intros Hpos. unfold JS.Array_filter.
  rewrite <- (filterFrom_notAt_delete l 0 (Z.to_nat index)).
  simpl. rewrite Z2Nat.id by exact Hpos. reflexivity.
Qed.

Lemma mapFrom_setFieldAt_alter field value (l : list (gmap string string)) i k :
  JS.mapFrom (setFieldAt (Z.of_nat (i + k)) field value) i l
    = alter (insert field value) k l.
Proof.
  revert i k. induction l as [|x l IH]; intros i k; [reflexivity|].
  cbn [JS.mapFrom]. unfold setFieldAt at 1. destruct k as [|k].
  - replace (JS.strictEq i (Z.of_nat (i + 0))) with true
      by (symmetry; apply strictEq_true; lia).
    simpl. f_equal. apply mapFrom_setFieldAt_miss. lia.
  - replace (JS.strictEq i (Z.of_nat (i + S k))) with false
      by (symmetry; apply strictEq_false; lia).
    simpl. f_equal. replace (i + S k)%nat with (S i + k)%nat by lia. apply IH.
Qed.

(** [map ((e, i) => i === index ? {...e, [field]: value} : e)] at a
    non-negative index changes the element at that position, if any. *)
Lemma Array_map_alter field value (l : list (gmap string string)) index :
  0 <= index ->
  JS.Array_map (setFieldAt index field value) l
    = alter (insert field value) (Z.to_nat index) l.
Proof.
  intros Hpos. unfold JS.Array_map.
  rewrite <- (mapFrom_setFieldAt_alter field value l 0 (Z.to_nat index)).
  simpl. rewrite Z2Nat.id by exact Hpos. reflexivity.
Qed.

Lemma delete_removedAt {A} k (l : list A) : removedAt k l (delete k l).
Proof.
  intros j. destruct (decide (j < k)%nat).
  - apply list_lookup_delete_lt. assumption.
  - apply list_lookup_delete_ge. lia.
Qed.

Lemma alter_changedAt k field value l :
  changedAt k field value l (alter (insert field value) k l).
Proof.
  intros j. destruct (decide (j = k)) as [->|Hne].
  - apply list_lookup_alter_eq.
  - apply list_lookup_alter_ne. congruence.
Qed.

(** X1: a removal at a non-negative index takes out the entry at that
    position and nothing else: the entries before it stay in place, the later
    ones move down by one.  So for the experience, the education, the skills
    and the projects (an absent projects list read as empty). *)
Theorem removal_shifts_later_entries_down :
  forall index r,
    0 <= index ->
    removedAt (Z.to_nat index) (experience r) (experience (removeExperience index r)) /\
    removedAt (Z.to_nat index) (education r) (education (removeEducation index r)) /\
    removedAt (Z.to_nat index) (skills r) (skills (removeSkill index r)) /\
    (exists l, projects (removeProject index r) = Some l /\
               removedAt (Z.to_nat index) (JS.orEmpty (projects r)) l).
Proof.
  intros index r Hpos. simpl. rewrite !Array_filter_delete by exact Hpos.
  repeat split; try apply delete_removedAt.
  eexists. split; [reflexivity | apply delete_removedAt].
Qed.

Lemma removal_shifts_later_entries_down_witness :
  skills (removeSkill 1 (withSkills ["A"; "B"; "C"] initialResumeData)) = ["A"; "C"] /\
  skills (removeSkill 1 (removeSkill 1 (withSkills ["A"; "B"; "C"] initialResumeData)))
    = ["A"].
Proof.
  assert (Hshift : forall l l' : list string,
            removedAt 1 l l' -> l' = delete 1%nat l).
  { intros l l' H. apply list_eq. intros j. rewrite (H j).
    symmetry. apply delete_removedAt. }
  destruct (removal_shifts_later_entries_down 1
              (withSkills ["A"; "B"; "C"] initialResumeData) ltac:(lia))
    as (_ & _ & H1 & _).
  destruct (removal_shifts_later_entries_down 1
              (removeSkill 1 (withSkills ["A"; "B"; "C"] initialResumeData))
              ltac:(lia))
    as (_ & _ & H2 & _).
  split.
  - apply Hshift in H1. exact H1.
  - apply Hshift in H2. exact H2.
Defined.

(** X2: an update at a non-negative index sets the one field of the entry
    at that position (leaving its other fields) and changes no other entry;
    the list keeps its length.  So for the experience, the education and the
    projects. *)
Theorem update_changes_one_field_of_one_entry :
  forall index field value r,
    0 <= index ->
    changedAt (Z.to_nat index) field value
      (experience r) (experience (updateExperience index field value r)) /\
    changedAt (Z.to_nat index) field value
      (education r) (education (updateEducation index field value r)) /\
    (exists l, projects (updateProject index field value r) = Some l /\
               changedAt (Z.to_nat index) field value (JS.orEmpty (projects r)) l) /\
    length (experience (updateExperience index field value r))
      = length (experience r) /\
    length (education (updateEducation index field value r))
      = length (education r).
Proof.
  intros index field value r Hpos. simpl.
  rewrite !Array_map_alter by exact Hpos. rewrite !length_alter.
  repeat split; try apply alter_changedAt.
  eexists. split; [reflexivity | apply alter_changedAt].
Qed.

Lemma update_changes_one_field_of_one_entry_witness :
  exists e,
    experience (updateExperience 0 "title" "Lead" sampleFullRecord) !! 0%nat = Some e /\
    e !! "title" = Some "Lead" /\ e !! "company" = Some "".
Proof.
  destruct (update_changes_one_field_of_one_entry 0 "title" "Lead"
              sampleFullRecord ltac:(lia)) as (Hexp & _).
  eexists. split; [rewrite (Hexp 0%nat); reflexivity|].
  split; reflexivity.
Defined.

(** ** How the handlers compose *)

Lemma delete_last {A} (l : list A) x : delete (length l) (l ++ [x]) = l.
Proof. induction l as [|y l IH]; simpl; [|rewrite IH]; reflexivity. Qed.

Lemma Array_filter_last {A} (l : list A) x :
  JS.Array_filter (notAt (Z.of_nat (length l))) (l ++ [x]) = l.
Proof.
  rewrite Array_filter_delete by lia. rewrite Nat2Z.id. apply delete_last.
Qed.

(** X3: removing the entry that an add has just appended (at the position
    equal to the old length) gives back the record from before the add, for
    the experience, the education and a skill that [addSkill] did append; for
    the projects it gives the record with its projects list as it is read. *)
Theorem remove_undoes_add :
  forall r,
    removeExperience (Z.of_nat (length (experience r))) (addExperience r) = r /\
    removeEducation (Z.of_nat (length (education r))) (addEducation r) = r /\
    removeProject (Z.of_nat (length (JS.orEmpty (projects r)))) (addProject r)
      = normalizeProjects r /\
    (forall skill,
       JS.trim skill <> "" -> JS.trim skill ∉ skills r ->
       removeSkill (Z.of_nat (length (skills r))) (addSkill skill r) = r).
Proof.
  intros r. split; [|split; [|split]].
  - unfold removeExperience, addExperience; simpl.
    rewrite Array_filter_last. apply record_eta.
  - unfold removeEducation, addEducation; simpl.
    rewrite Array_filter_last. apply record_eta.
  - unfold removeProject, addProject; simpl.
    rewrite Array_filter_last. reflexivity.
  - intros skill Hne Hnew. rewrite addSkill_appends by assumption.
    unfold removeSkill, withSkills; simpl.
    rewrite Array_filter_last. apply record_eta.
Qed.

Lemma remove_undoes_add_witness :
  removeSkill 1 (addSkill " Rocq " sampleFullRecord) = sampleFullRecord.
Proof.
  apply (proj2 (proj2 (proj2 (remove_undoes_add sampleFullRecord))) " Rocq ").
  - discriminate.
  - vm_compute. intros Hin. apply list_elem_of_singleton in Hin. discriminate.
Defined.

Lemma mapFrom_mapFrom {A B C} (g : B -> nat -> C) (f : A -> nat -> B) l i :
  JS.mapFrom g i (JS.mapFrom f i l) = JS.mapFrom (fun x j => g (f x j) j) i l.
Proof. revert i. induction l as [|x l IH]; intros i; simpl; [|rewrite IH]; reflexivity. Qed.

Lemma mapFrom_ext {A B} (f g : A -> nat -> B) l i :
  (forall x j, f x j = g x j) -> JS.mapFrom f i l = JS.mapFrom g i l.
Proof.
  intros Hfg. revert i. induction l as [|x l IH]; intros i; simpl;
    [|rewrite Hfg, IH]; reflexivity.
Qed.

Lemma Array_map_Array_map index1 field1 value1 index2 field2 value2
  (l : list (gmap string string)) :
  JS.Array_map (setFieldAt index2 field2 value2)
    (JS.Array_map (setFieldAt index1 field1 value1) l)
  = JS.Array_map
      (fun e j => setFieldAt index2 field2 value2 (setFieldAt index1 field1 value1 e j) j)
      l.
Proof. apply mapFrom_mapFrom. Qed.

Lemma setFieldAt_twice index field v1 v2 e j :
  setFieldAt index field v2 (setFieldAt index field v1 e j) j
    = setFieldAt index field v2 e j.
Proof.
  unfold setFieldAt. destruct (JS.strictEq j index); [|reflexivity].
  apply insert_insert_eq.
Qed.

Lemma setFieldAt_commute index1 field1 v1 index2 field2 v2 e j :
  index1 <> index2 \/ field1 <> field2 ->
  setFieldAt index2 field2 v2 (setFieldAt index1 field1 v1 e j) j
    = setFieldAt index1 field1 v1 (setFieldAt index2 field2 v2 e j) j.
Proof.
  intros Hne. unfold setFieldAt.
  destruct (JS.strictEq j index1) eqn:H1, (JS.strictEq j index2) eqn:H2;
    try reflexivity.
  apply strictEq_true in H1, H2.
  destruct Hne as [Hne|Hne]; [congruence|].
  apply insert_insert_ne. congruence.
Qed.

Lemma delete_alter {A} (f : A -> A) k (l : list A) :
  delete k (alter f k l) = delete k l.
Proof.
  revert k. induction l as [|x l IH]; intros [|k]; simpl; try reflexivity.
  f_equal. apply IH.
Qed.

Lemma Array_filter_Array_map index field value (l : list (gmap string string)) :
  JS.Array_filter (notAt index) (JS.Array_map (setFieldAt index field value) l)
    = JS.Array_filter (notAt index) l.
Proof.
  destruct (Z.leb_spec 0 index) as [Hpos|Hneg].
  - rewrite !Array_filter_delete, Array_map_alter by exact Hpos.
    apply delete_alter.
  - rewrite Array_map_out_of_range; [reflexivity|].
    apply inRange_false. lia.
Qed.

(** X4: updates compose as writes to a table: of two updates of the same
    field of the same entry the later one stands; two updates of different
    entries, or of different fields, give the same record in either order;
    and an entry that is removed right after an update of it leaves no trace
    of the update. *)
Theorem updates_compose :
  (forall index field v1 v2 r,
     updateExperience index field v2 (updateExperience index field v1 r)
       = updateExperience index field v2 r) /\
  (forall index1 field1 v1 index2 field2 v2 r,
     index1 <> index2 \/ field1 <> field2 ->
     updateExperience index2 field2 v2 (updateExperience index1 field1 v1 r)
       = updateExperience index1 field1 v1 (updateExperience index2 field2 v2 r)) /\
  (forall index field value r,
     removeExperience index (updateExperience index field value r)
       = removeExperience index r).
Proof.
  split; [|split].
  - intros index field v1 v2 r. unfold updateExperience; simpl. f_equal.
    rewrite Array_map_Array_map. apply mapFrom_ext. intros e j.
    apply setFieldAt_twice.
  - intros index1 field1 v1 index2 field2 v2 r Hne.
    unfold updateExperience; simpl. f_equal.
    rewrite !Array_map_Array_map. apply mapFrom_ext. intros e j.
    apply setFieldAt_commute, Hne.
  - intros index field value r. unfold removeExperience, updateExperience; simpl.
    f_equal. apply Array_filter_Array_map.
Qed.

Lemma updates_compose_witness :
  updateExperience 0 "company" "ACME" (updateExperience 0 "title" "Lead" sampleFullRecord)
    = updateExperience 0 "title" "Lead"
        (updateExperience 0 "company" "ACME" sampleFullRecord).
Proof.
  apply (proj1 (proj2 updates_compose)). right. discriminate.
Defined.

(** ** Display order *)

Lemma seq_StronglySorted i n : StronglySorted lt (seq i n).
Proof.
  revert i. induction n as [|n IH]; intros i; simpl; constructor; [apply IH|].
  apply Forall_forall. intros j Hj. apply elem_of_seq in Hj. lia.
Qed.

Lemma filterFrom_StronglySorted {A} (R : relation A) (p : A -> nat -> bool) l i :
  StronglySorted R l -> StronglySorted R (JS.filterFrom p i l).
Proof.
  revert i. induction l as [|x l IH]; intros i Hs; simpl; [constructor|].
  apply StronglySorted_cons in Hs as [Hx Hl].
  destruct (p x i); [|auto].
  apply StronglySorted_cons. split; [|auto].
  apply Forall_forall. intros y Hy%elem_of_filterFrom.
  rewrite Forall_forall in Hx. auto.
Qed.

Lemma trackCall_sorted r t call :
  TrackInv r t -> StronglySorted lt (tagged t).*1 ->
  StronglySorted lt (tagged (trackCall t call)).*1.
Proof.
  intros [Hbound _ _ _ _] Hs.
  destruct call as [|index field value|index]; simpl.
  - rewrite fmap_app. apply StronglySorted_app_2; [|exact Hs|].
    + intros x1 x2 H1 H2%list_elem_of_singleton. apply Hbound in H1.
      simpl in H2. lia.
    + simpl. repeat constructor.
  - unfold JS.Array_map. rewrite mapFrom_tagged_fst. exact Hs.
  - unfold JS.Array_filter, notAt.
    rewrite (filterFrom_fmap fst (fun j => negb (JS.strictEq j index))).
    apply filterFrom_StronglySorted, Hs.
Qed.

(** X5: the experience list is kept in the order in which its entries
    entered it: after any sequence of adds, updates and removals the tags of
    the entries that are left are strictly increasing (the entries of the
    starting record in their order, then the added ones in the order of the
    adds). *)
Theorem experience_keeps_insertion_order :
  forall calls r,
    StronglySorted lt (tagged (trackCalls calls r)).*1 /\
    (tagged (trackCalls calls r)).*2 = experience (applyCalls calls r).
Proof.
  intros calls r. split; [|apply trackCalls_erase].
  induction calls as [|call calls IH] using rev_ind.
  - simpl. unfold trackStart, JS.Array_map; simpl.
    rewrite mapFrom_tag_fst. apply seq_StronglySorted.
  - rewrite trackCalls_snoc. eapply trackCall_sorted; [apply trackCalls_inv|exact IH].
Qed.

(** ** Skills stay distinct, non-empty and trimmed *)

Lemma trimEnd_cons c s :
  JS.trimEnd (String c s)
    = match JS.trimEnd s with
      | EmptyString => if JS.isWhiteSpace c then EmptyString else String c EmptyString
      | t => String c t
      end.
Proof. reflexivity. Qed.

Lemma trimEnd_idempotent s : JS.trimEnd (JS.trimEnd s) = JS.trimEnd s.
Proof.
  induction s as [|c s IH]; [reflexivity|].
  rewrite (trimEnd_cons c s). destruct (JS.trimEnd s) as [|d t] eqn:Hend.
  - destruct (JS.isWhiteSpace c) eqn:Hc; [reflexivity|].
    rewrite trimEnd_cons. simpl. rewrite Hc. reflexivity.
  - rewrite trimEnd_cons, IH. reflexivity.
Qed.

Lemma trimStart_head s :
  JS.trimStart s = "" \/
  exists c s', JS.trimStart s = String c s' /\ JS.isWhiteSpace c = false.
Proof.
  induction s as [|c s IH]; [left; reflexivity|].
  cbn [JS.trimStart]. destruct (JS.isWhiteSpace c) eqn:Hc; [exact IH|].
  right. eauto.
Qed.

Lemma trimEnd_head c s :
  JS.isWhiteSpace c = false -> exists t, JS.trimEnd (String c s) = String c t.
Proof.
  intros Hc. cbn [JS.trimEnd]. destruct (JS.trimEnd s); [rewrite Hc|]; eauto.
Qed.

(** Trimming what is trimmed changes nothing. *)
Lemma trim_idempotent s : JS.trim (JS.trim s) = JS.trim s.
Proof.
  unfold JS.trim. destruct (trimStart_head s) as [->|(c & s' & -> & Hc)];
    [reflexivity|].
  destruct (trimEnd_head c s' Hc) as [t Ht]. rewrite Ht.
  cbn [JS.trimStart]. rewrite Hc, <- Ht. apply trimEnd_idempotent.
Qed.

(** X6: the skills of the initial record are distinct, non-empty and
    trimmed, and [addSkill] and [removeSkill] keep them so: no sequence of
    these two handlers puts an empty, a padded or a repeated skill in the
    list. *)
Theorem skills_stay_well_formed :
  skillsWellFormed (skills initialResumeData) /\
  (forall skill index r,
     skillsWellFormed (skills r) ->
     skillsWellFormed (skills (addSkill skill r)) /\
     skillsWellFormed (skills (removeSkill index r))).
Proof.
  split; [split; constructor|].
  intros skill index r [Hnd Hall]. split.
  - split; [apply addSkill_NoDup, Hnd|].
    destruct (decide (JS.trim skill = "")) as [Hempty|Hne];
      [rewrite addSkill_noop by auto; exact Hall|].
    destruct (decide (JS.trim skill ∈ skills r)) as [Hin|Hnew];
      [rewrite addSkill_noop by auto; exact Hall|].
    rewrite addSkill_appends by assumption. simpl.
    apply Forall_app. split; [exact Hall|].
    constructor; [|constructor]. split; [exact Hne | apply trim_idempotent].
  - unfold removeSkill; simpl. split.
    + apply filterFrom_NoDup, Hnd.
    + apply Forall_forall. intros s Hs%elem_of_filterFrom.
      rewrite Forall_forall in Hall. auto.
Qed.

Lemma skills_stay_well_formed_witness :
  skillsWellFormed
    (skills (removeSkill 0 (addSkill "  Rocq " (addSkill "Lean" initialResumeData)))).
Proof.
  destruct skills_stay_well_formed as [Hinit Hstep].
  apply (Hstep "" 0), (Hstep "  Rocq " 0), (Hstep "Lean" 0), Hinit.
Defined.

(** ** The score: range, growth, completeness *)

Lemma countTrue_cons b bs :
  countTrue (b :: bs) = (if b then 1 else 0) + countTrue bs.
Proof.
  unfold countTrue. destruct b.
  - rewrite filter_cons_True by reflexivity. cbn [length]. lia.
  - rewrite filter_cons_False by discriminate. lia.
Qed.

Lemma countTrue_range bs : 0 <= countTrue bs <= Z.of_nat (length bs).
Proof.
  induction bs as [|b bs IH]; [unfold countTrue; simpl; lia|].
  rewrite countTrue_cons. cbn [length]. destruct b; lia.
Qed.

Lemma countTrue_mono bs1 bs2 :
  Forall2 (fun a b => a = true -> b = true) bs1 bs2 ->
  countTrue bs1 <= countTrue bs2.
Proof.
  induction 1 as [|a b bs1 bs2 Hab _ IH]; [lia|].
  rewrite !countTrue_cons.
  destruct a, b; try lia; specialize (Hab eq_refl); discriminate.
Qed.

Lemma count_cases n : 0 <= n <= 7 ->
  n = 0 \/ n = 1 \/ n = 2 \/ n = 3 \/ n = 4 \/ n = 5 \/ n = 6 \/ n = 7.
Proof. lia. Qed.

Lemma specScore_values n : 0 <= n <= 7 ->
  specScore n ∈ [0; 14; 29; 43; 57; 71; 86; 100].
Proof.
  intros Hn. apply count_cases in Hn.
  repeat (destruct Hn as [->|Hn]); try subst n; vm_compute;
    repeat (first [apply list_elem_of_here | apply list_elem_of_further]).
Qed.

Lemma specScore_mono n m : 0 <= n -> n <= m -> m <= 7 -> specScore n <= specScore m.
Proof.
  intros H0 Hnm H7.
  assert (Hn : 0 <= n <= 7) by lia. assert (Hm : 0 <= m <= 7) by lia.
  apply count_cases in Hn, Hm.
  repeat (destruct Hn as [->|Hn]); try subst n;
    repeat (destruct Hm as [->|Hm]); try subst m;
    try lia; vm_compute; discriminate.
Qed.

Lemma completionPredicates_count r : 0 <= countTrue (completionPredicates r) <= 7.
Proof. apply (countTrue_range (completionPredicates r)). Qed.

(** X7: the score is always one of 0, 14, 29, 43, 57, 71, 86 and 100, so
    never below 0 nor above 100, and never NaN. *)
Theorem completion_score_range :
  forall r, exists n,
    getCompletionPercentage r = Some n /\
    n ∈ [0; 14; 29; 43; 57; 71; 86; 100] /\ 0 <= n <= 100.
Proof.
  intros r. eexists. split; [apply getCompletionPercentage_predicates|].
  pose proof (specScore_values _ (completionPredicates_count r)) as Hin.
  split; [exact Hin|].
  repeat (apply elem_of_cons in Hin as [->|Hin]); try lia. inversion Hin.
Qed.

Lemma predicatesLe_scoreLe r1 r2 : predicatesLe r1 r2 -> scoreLe r1 r2.
Proof.
  intros Hle. unfold scoreLe. do 2 eexists.
  split; [apply getCompletionPercentage_predicates|].
  split; [apply getCompletionPercentage_predicates|].
  pose proof (completionPredicates_count r1).
  pose proof (completionPredicates_count r2).
  apply specScore_mono; [lia | apply countTrue_mono, Hle | lia].
Qed.

Lemma nonempty_app {A} `{EqDecision A} (l : list A) x b :
  b = true -> negb (bool_decide (l ++ [x] = [])) = true.
Proof. intros _. destruct l; reflexivity. Qed.

(** X8: the score grows with the predicates: a record on which every
    predicate that holds of another holds too scores at least as much.  So
    adding an experience, an education, a project or a skill, and setting a
    field of personalInfo to a non-empty text, never lowers the score. *)
Theorem completion_score_monotone :
  (forall r1 r2, predicatesLe r1 r2 -> scoreLe r1 r2) /\
  (forall r skill,
     scoreLe r (addExperience r) /\ scoreLe r (addEducation r) /\
     scoreLe r (addProject r) /\ scoreLe r (addSkill skill r)) /\
  (forall r field value,
     value <> "" -> scoreLe r (handlePersonalInfoChange field value r)).
Proof.
  split; [exact predicatesLe_scoreLe|]. split.
  - intros r skill.
    repeat split; apply predicatesLe_scoreLe;
      unfold predicatesLe, completionPredicates; simpl.
    + repeat constructor; try tauto. apply nonempty_app.
    + repeat constructor; try tauto. apply nonempty_app.
    + repeat constructor; try tauto. apply nonempty_app.
    + destruct (decide (JS.trim skill = "")) as [Hempty|Hne];
        [rewrite addSkill_noop by auto; repeat constructor; tauto|].
      destruct (decide (JS.trim skill ∈ skills r)) as [Hin|Hnew];
        [rewrite addSkill_noop by auto; repeat constructor; tauto|].
      rewrite addSkill_appends by assumption. simpl.
      repeat constructor; try tauto. apply nonempty_app.
  - intros r field value Hvalue. apply predicatesLe_scoreLe.
    unfold predicatesLe, completionPredicates; simpl.
    assert (Hfield : forall k,
              JS.truthyProp (personalInfo r !! k) = true ->
              JS.truthyProp (<[field := value]> (personalInfo r) !! k) = true).
    { intros k Hk. destruct (decide (field = k)) as [->|Hne].
      - rewrite lookup_insert_eq. simpl. apply truthy_true, Hvalue.
      - rewrite lookup_insert_ne by exact Hne. exact Hk. }
    repeat constructor; try tauto; apply Hfield.
Qed.

Lemma completion_score_monotone_witness :
  scoreLe initialResumeData (handlePersonalInfoChange "name" "Ada" initialResumeData) /\
  scoreLe recordWithoutProjects sampleFullRecord.
Proof.
  destruct completion_score_monotone as (Hmono & _ & Hfield).
  split; [apply Hfield; discriminate|].
  apply Hmono. unfold predicatesLe. vm_compute.
  repeat constructor; discriminate.
Defined.

(** X9: the score is 100 exactly when all seven predicates hold, and 0
    exactly when none does. *)
Theorem completion_score_extremes :
  forall r,
    (getCompletionPercentage r = Some 100 <->
     completionPredicates r = [true; true; true; true; true; true; true]) /\
    (getCompletionPercentage r = Some 0 <->
     completionPredicates r = [false; false; false; false; false; false; false]).
Proof.
  intros r. rewrite getCompletionPercentage_predicates.
  unfold completionPredicates.
  destruct (JS.truthyProp (personalInfo r !! "name")),
    (JS.truthyProp (personalInfo r !! "email")),
    (JS.truthyProp (personalInfo r !! "summary")),
    (bool_decide (skills r = [])), (bool_decide (experience r = [])),
    (bool_decide (education r = [])),
    (bool_decide (JS.orEmpty (projects r) = []));
    vm_compute; repeat split; intros H; (reflexivity || discriminate H).
Qed.

(** ** The debounce in general *)

(** X10: the debounce for any run of changes made in one section, as long
    as the component renders after each of them: when each change comes less
    than 2000 after the one before, nothing is written during the run nor
    before 2000 have passed since the last change, and then exactly one write
    happens, 2000 after the last change, with a text that holds the record
    after all the changes. *)
Theorem debounce_writes_once_after_last_change :
  forall events t0 f0 c T,
    mounted c = true ->
    rendersAll (activeSection c) ((t0, f0) :: events) (resumeData c) ->
    now c <= t0 ->
    (forall timer, autosaveTimer c = Some timer -> t0 < due timer) ->
    withinWindow t0 events ->
    let final := applyChanges ((t0, f0) :: events) (resumeData c) in
    let c' := advance T (run ((t0, f0) :: events) c) in
    (T < lastTime t0 events + 2000 -> setItemCalls c' = setItemCalls c) /\
    (lastTime t0 events + 2000 <= T ->
     exists text,
       setItemCalls c'
         = setItemCalls c ++ [(lastTime t0 events + 2000, storageKey, text)] /\
       textHolds text final) /\
    resumeData c' = final.
Proof.
  intros events t0 f0 c T Hm Hrenders Hnow Hquiet Hwin final c'.
  destruct (run_within_window events t0 f0 c Hm Hrenders Hnow Hquiet Hwin)
    as (Ht & Hr & Hc & Hn & _).
  subst c' final. set (cr := run ((t0, f0) :: events) c) in *. clearbody cr.
  split; [|split].
  - intros HT.
    assert (Hq : forall timer, autosaveTimer cr = Some timer -> T < due timer).
    { intros timer Heq. rewrite Ht in Heq. injection Heq as <-. simpl. lia. }
    destruct (advance_quiet T cr Hq) as (_ & _ & -> & _). exact Hc.
  - intros HT.
    exists (textOf (applyChanges ((t0, f0) :: events) (resumeData c))).
    split; [|apply textHolds_textOf].
    destruct (advance_fires T cr _ Ht) as (_ & _ & ->); [simpl; lia|].
    rewrite Hc. simpl.
    replace (Z.max (lastTime t0 events + 2000) (now cr))
      with (lastTime t0 events + 2000) by lia.
    reflexivity.
  - destruct (Z.le_gt_cases (lastTime t0 events + 2000) T) as [HT|HT].
    + destruct (advance_fires T cr _ Ht) as (_ & -> & _); [simpl; lia|]. exact Hr.
    + assert (Hq : forall timer, autosaveTimer cr = Some timer -> T < due timer).
      { intros timer Heq. rewrite Ht in Heq. injection Heq as <-. simpl. lia. }
      destruct (advance_quiet T cr Hq) as (_ & -> & _). exact Hr.
Qed.

Lemma debounce_writes_once_after_last_change_witness :
  exists text,
    setItemCalls
      (advance 10000
         (run [(100, addExperience); (1900, updateExperience 0 "title" "Lead");
               (3800, updateExperience 0 "company" "ACME");
               (5000, removeExperience 0)]
            (setActiveSection ExperienceSection (firstRender emptyStorage 0))))
    = [(7000, storageKey, text)] /\
    textHolds text initialResumeData.
Proof.
  destruct (debounce_writes_once_after_last_change
              [(1900, updateExperience 0 "title" "Lead");
               (3800, updateExperience 0 "company" "ACME");
               (5000, removeExperience 0)]
              100 addExperience
              (setActiveSection ExperienceSection (firstRender emptyStorage 0))
              10000) as (_ & Hwrite & _).
  - reflexivity.
  - simpl. repeat split.
  - simpl. lia.
  - discriminate.
  - simpl. lia.
  - apply Hwrite. simpl. lia.
Defined.

(** ** What the autosave leaves in the store *)

Lemma setItem_accepted k v store :
  accepts store (items store) k v = true ->
  setItem k v store
    = Some {| items := <[k := v]> (items store); accepts := accepts store |}.
Proof. intros Hacc. unfold setItem. rewrite Hacc. reflexivity. Qed.

(** The pending save is due by [T] and the store takes its text. *)
Lemma advance_saves T c timer :
  autosaveTimer c = Some timer -> due timer <= T ->
  accepts (localStorage c) (items (localStorage c)) storageKey
    (textOf (captured timer)) = true ->
  items (localStorage (advance T c))
    = <[storageKey := textOf (captured timer)]> (items (localStorage c)) /\
  accepts (localStorage (advance T c)) = accepts (localStorage c) /\
  lastSaved (advance T c) = Some (Z.max (due timer) (now c)) /\
  resumeData (advance T c) = resumeData c /\
  autosaveTimer (advance T c) = None /\
  toasts (advance T c) = toasts c.
Proof.
  intros Htimer Hdue Hacc. unfold advance. rewrite Htimer.
  rewrite (proj2 (Z.leb_le _ _) Hdue). unfold saveToLocalStorage.
  cbn [localStorage clearAutosaveTimer setClock fireSavingTimers].
  fold (textOf (captured timer)).
  rewrite (setItem_accepted _ _ _ Hacc).
  cbn [localStorage clearAutosaveTimer setClock fireSavingTimers items accepts
       lastSaved resumeData autosaveTimer toasts now].
  split; [reflexivity|]. split; [reflexivity|]. split; [reflexivity|].
  split; [reflexivity|]. split; reflexivity.
Qed.

Lemma load_items data c :
  items (localStorage c) !! storageKey = Some (textOf data) ->
  exists c', loadFromLocalStorage c = LoadedState c' /\ resumeData c' = data.
Proof.
  intros Hitems. unfold textOf in Hitems.
  exists (addToast (ToastSuccess "Previous data loaded") (setResumeData data c)).
  split; [exact (load_stored_record data c Hitems) | apply setResumeData_record].
Qed.

(** The record [data] is set on a component that renders with it, the store
    takes every text, and nothing else happens until [T], 2000 later or
    more. *)
Lemma set_then_quiet data c T :
  mounted c = true -> renderThrows (activeSection c) data = false ->
  acceptsAll (localStorage c) -> now c + 2000 <= T ->
  let c' := advance T (setResumeData data c) in
  items (localStorage c') !! storageKey = Some (textOf data) /\
  lastSaved c' = Some (now c + 2000) /\
  autosaveTimer c' = None /\
  resumeData c' = data /\
  setItemCalls c' = setItemCalls c ++ [(now c + 2000, storageKey, textOf data)].
Proof.
  intros Hm Hrender Hacc HT c'.
  destruct (setResumeData_renders data c Hm Hrender)
    as (Htimer & _ & Hstore & Hcalls & _ & Hnow).
  destruct (advance_saves T (setResumeData data c)
              {| due := now c + 2000; captured := data |} Htimer HT)
    as (Hitems & _ & Hsaved & Hdata & Hnone & _).
  { rewrite Hstore. apply Hacc. }
  destruct (advance_fires T (setResumeData data c)
              {| due := now c + 2000; captured := data |} Htimer HT)
    as (_ & _ & Hwritten).
  fold c' in Hitems, Hsaved, Hdata, Hnone, Hwritten.
  cbn [due captured] in Hitems, Hsaved, Hwritten.
  rewrite Hnow in Hsaved, Hwritten. rewrite Hcalls in Hwritten.
  replace (Z.max (now c + 2000) (now c)) with (now c + 2000) in Hsaved, Hwritten
    by lia.
  split; [rewrite Hitems; apply lookup_insert_eq|].
  split; [exact Hsaved|]. split; [exact Hnone|].
  split; [rewrite Hdata; apply setResumeData_record | exact Hwritten].
Qed.

(** X11: whatever sets the record (a handler, an import, a load) on a
    component that renders with it gets it persisted: when nothing else
    happens for 2000 and the store takes what it is given, the store then
    holds a text of that record, [lastSaved] is the time of the write, no
    save is pending, and a load from that store gives the record back.  When
    the render throws with the record, nothing is written and the store
    stays as it was. *)
Theorem quiet_window_persists_record :
  forall data c T,
    mounted c = true ->
    (renderThrows (activeSection c) data = false ->
     acceptsAll (localStorage c) -> now c + 2000 <= T ->
     (let c' := advance T (setResumeData data c) in
      (exists text,
         getItem storageKey (localStorage c') = Some text /\ textHolds text data) /\
      lastSaved c' = Some (now c + 2000) /\
      autosaveTimer c' = None /\
      resumeData c' = data /\
      exists c'',
        loadFromLocalStorage c' = LoadedState c'' /\ resumeData c'' = data) /\
     (let c' := advance T (onDataImported data c) in
      (exists text,
         getItem storageKey (localStorage c') = Some text /\ textHolds text data) /\
      resumeData c' = data)) /\
    (renderThrows (activeSection c) data = true ->
     let c' := advance T (setResumeData data c) in
     setItemCalls c' = setItemCalls c /\
     items (localStorage c') = items (localStorage c) /\
     mounted c' = false).
Proof.
  intros data c T Hm. split.
  - intros Hrender Hacc HT. split.
    + intros c'.
      destruct (set_then_quiet data c T Hm Hrender Hacc HT)
        as (Hget & Hsaved & Hnone & Hdata & _).
      fold c' in Hget, Hsaved, Hnone, Hdata.
      split; [exists (textOf data); split; [exact Hget | apply textHolds_textOf]|].
      split; [exact Hsaved|]. split; [exact Hnone|]. split; [exact Hdata|].
      apply load_items, Hget.
    + intros c'.
      destruct (setResumeData_renders data c Hm Hrender)
        as (Htimer & _ & Hstore & _ & _ & Hnow).
      destruct (advance_saves T (onDataImported data c)
                  {| due := now c + 2000; captured := data |})
        as (Hitems & _ & _ & Hdata & _).
      { unfold onDataImported. cbn [addToast autosaveTimer]. exact Htimer. }
      { exact HT. }
      { unfold onDataImported. cbn [addToast localStorage]. rewrite Hstore.
        apply Hacc. }
      fold c' in Hitems, Hdata.
      split.
      * exists (textOf data). split; [|apply textHolds_textOf].
        unfold getItem. rewrite Hitems. apply lookup_insert_eq.
      * rewrite Hdata. unfold onDataImported. cbn [addToast resumeData].
        apply setResumeData_record.
  - intros Hrender c'.
    destruct (setResumeData_throws data c Hrender)
      as (Htimer & Hmounted & Hstore & Hcalls & _).
    subst c'. unfold advance. rewrite Htimer.
    cbn [setClock fireSavingTimers setItemCalls localStorage mounted].
    rewrite Hcalls, Hstore, Hmounted. split; [reflexivity|]. split; reflexivity.
Qed.

Lemma quiet_window_persists_record_witness :
  exists text,
    getItem storageKey
      (localStorage (advance 2000 (setResumeData sampleFullRecord
                                     (firstRender emptyStorage 0))))
      = Some text /\
    textHolds text sampleFullRecord.
Proof.
  destruct (quiet_window_persists_record sampleFullRecord
              (firstRender emptyStorage 0) 2000 eq_refl) as (Hsaves & _).
  destruct Hsaves as ((Htext & _) & _).
  - reflexivity.
  - intros its k v. reflexivity.
  - cbn [firstRender now]. lia.
  - exact Htext.
Defined.

(** X16: the persisted text determines the record: two records with the
    same text are the same record. *)
Theorem persisted_text_determines_record :
  forall r1 r2, textOf r1 = textOf r2 -> r1 = r2.
Proof.
  intros r1 r2 Htext.
  pose (read := fun text =>
                  match JSON.parse text with
                  | JSON.Parsed v => fromJS v
                  | _ => None
                  end).
  assert (Hread : forall r, read (textOf r) = Some r).
  { intros r. unfold read, textOf. rewrite parse_stringify. apply fromJS_toJS. }
  assert (Hsame : read (textOf r1) = read (textOf r2)) by (rewrite Htext; reflexivity).
  rewrite !Hread in Hsame. congruence.
Qed.

Lemma persisted_text_determines_record_witness :
  addSkill "Coq" (addSkill " Coq " initialResumeData) = addSkill "Coq" initialResumeData.
Proof.
  apply persisted_text_determines_record. vm_compute. reflexivity.
Defined.

(** ** Loading: nothing stored, nothing usable, the first render *)

(** X13: a load changes nothing when the store has no record or holds the
    empty text.  When [JSON.parse] throws on the stored text, the error is
    logged to the console and the record, the pending timer, the toasts and
    the store stay as they were.  When the text parses to a value that is no
    record ([null], a list, an object with other members), nothing is logged:
    the value is handed to [setResumeData] and the success toast is shown. *)
Theorem load_without_usable_text :
  (forall c,
     getItem storageKey (localStorage c) = None \/
     getItem storageKey (localStorage c) = Some "" ->
     loadFromLocalStorage c = LoadedState c) /\
  (forall c saved,
     getItem storageKey (localStorage c) = Some saved ->
     saved <> "" -> JSON.parse saved = JSON.SyntaxError ->
     exists c',
       loadFromLocalStorage c = LoadedState c' /\
       resumeData c' = resumeData c /\
       autosaveTimer c' = autosaveTimer c /\
       toasts c' = toasts c /\
       localStorage c' = localStorage c /\
       mounted c' = mounted c /\
       consoleErrors c' = consoleErrors c ++ ["Failed to load saved data:"]) /\
  (forall c saved v,
     getItem storageKey (localStorage c) = Some saved ->
     saved <> "" -> JSON.parse saved = JSON.Parsed v -> fromJS v = None ->
     exists c',
       loadFromLocalStorage c = LoadedUntyped v c' /\
       toasts c' = toasts c ++ [ToastSuccess "Previous data loaded"] /\
       consoleErrors c' = consoleErrors c).
Proof.
  split; [|split].
  - intros c [Hnone|Hempty]; unfold loadFromLocalStorage.
    + rewrite Hnone. reflexivity.
    + rewrite Hempty. reflexivity.
  - intros c saved Hsaved Hne Hparse. unfold loadFromLocalStorage.
    rewrite Hsaved, (proj2 (truthy_true saved) Hne), Hparse.
    eexists. split; [reflexivity|]. repeat split.
  - intros c saved v Hsaved Hne Hparse Hcast. unfold loadFromLocalStorage.
    rewrite Hsaved, (proj2 (truthy_true saved) Hne), Hparse, Hcast.
    eexists. split; [reflexivity|]. split; reflexivity.
Qed.

Lemma load_without_usable_text_witness :
  (exists c',
     loadFromLocalStorage
       (firstRender {| items := {[ storageKey := "{" ]};
                       accepts := fun _ _ _ => true |} 0) = LoadedState c' /\
     resumeData c' = initialResumeData /\
     consoleErrors c' = ["Failed to load saved data:"]) /\
  (exists c',
     loadFromLocalStorage
       (firstRender {| items := {[ storageKey := "null" ]};
                       accepts := fun _ _ _ => true |} 0)
       = LoadedUntyped JSON.Null c' /\
     toasts c' = [ToastSuccess "Previous data loaded"] /\
     consoleErrors c' = []).
Proof.
  split.
  - destruct (proj1 (proj2 load_without_usable_text)
                (firstRender {| items := {[ storageKey := "{" ]};
                                accepts := fun _ _ _ => true |} 0) "{")
      as (c' & Hload & Hr & _ & _ & _ & _ & He);
      [reflexivity | discriminate | reflexivity |].
    exists c'. split; [exact Hload|]. split; [exact Hr | exact He].
  - destruct (proj2 (proj2 load_without_usable_text)
                (firstRender {| items := {[ storageKey := "null" ]};
                                accepts := fun _ _ _ => true |} 0) "null" JSON.Null)
      as (c' & Hload & Ht & He);
      [reflexivity | discriminate | reflexivity | reflexivity |].
    exists c'. split; [exact Hload|]. split; [exact Ht | exact He].
Defined.

Lemma mount_empty store t :
  items store !! storageKey = None ->
  mount store t = LoadedState (runAutosaveEffect (firstRender store t)).
Proof.
  intros Hnone. unfold mount, loadFromLocalStorage, getItem.
  cbn [localStorage runAutosaveEffect firstRender]. rewrite Hnone. reflexivity.
Qed.

Lemma mount_parsed store t saved v data :
  items store !! storageKey = Some saved -> saved <> "" ->
  JSON.parse saved = JSON.Parsed v -> fromJS v = Some data ->
  mount store t
    = LoadedState (addToast (ToastSuccess "Previous data loaded")
                     (setResumeData data (runAutosaveEffect (firstRender store t)))).
Proof.
  intros Hstored Hne Hparse Hcast. unfold mount.
  exact (load_parsed_record saved v data
           (runAutosaveEffect (firstRender store t)) Hstored Hne Hparse Hcast).
Qed.

(** X12: the first render of the component.  With nothing stored the
    record is the empty one, no toast is shown, and the autosave is armed
    on it: 2000 later a text of the empty record is in the store.  With a
    text stored that holds a record with a summary, that record is
    installed, the success toast is shown, and 2000 later the record is
    written once, so that the store holds a text of it.  With a text stored
    that holds a record without a summary, the render with that record
    throws (line 518): the component is unmounted, no save is pending and
    nothing is ever written. *)
Theorem first_render_loads_and_arms_autosave :
  (forall store t T,
     items store !! storageKey = None ->
     exists c,
       mount store t = LoadedState c /\
       resumeData c = initialResumeData /\ toasts c = [] /\
       mounted c = true /\
       autosaveTimer c = Some {| due := t + 2000; captured := initialResumeData |} /\
       (t + 2000 <= T -> acceptsAll store ->
        exists text,
          getItem storageKey (localStorage (advance T c)) = Some text /\
          textHolds text initialResumeData)) /\
  (forall store t T saved data,
     items store !! storageKey = Some saved -> saved <> "" ->
     textHolds saved data ->
     exists c,
       mount store t = LoadedState c /\
       resumeData c = data /\
       toasts c = [ToastSuccess "Previous data loaded"] /\
       (personalInfo data !! "summary" <> None ->
        mounted c = true /\
        autosaveTimer c = Some {| due := t + 2000; captured := data |} /\
        (t + 2000 <= T -> acceptsAll store ->
         exists text,
           setItemCalls (advance T c) = [(t + 2000, storageKey, text)] /\
           getItem storageKey (localStorage (advance T c)) = Some text /\
           textHolds text data)) /\
       (personalInfo data !! "summary" = None ->
        mounted c = false /\
        autosaveTimer c = None /\
        setItemCalls (advance T c) = [] /\
        items (localStorage (advance T c)) = items store)).
Proof.
  split.
  - intros store t T Hnone. eexists. split; [apply mount_empty, Hnone|].
    split; [reflexivity|]. split; [reflexivity|]. split; [reflexivity|].
    split; [reflexivity|].
    intros HT Hacc. exists (textOf initialResumeData).
    split; [|apply textHolds_textOf].
    destruct (advance_saves T (runAutosaveEffect (firstRender store t))
                {| due := t + 2000; captured := initialResumeData |}
                eq_refl HT (Hacc _ _ _)) as (Hitems & _).
    unfold getItem. rewrite Hitems. apply lookup_insert_eq.
  - intros store t T saved data Hstored Hne (v & Hparse & Hcast).
    set (c0 := runAutosaveEffect (firstRender store t)).
    exists (addToast (ToastSuccess "Previous data loaded") (setResumeData data c0)).
    split; [exact (mount_parsed store t saved v data Hstored Hne Hparse Hcast)|].
    split; [cbn [addToast resumeData]; apply setResumeData_record|].
    split.
    { cbn [addToast toasts]. unfold setResumeData.
      destruct (mounted c0 && negb _)%bool; reflexivity. }
    split.
    + intros Hsummary.
      assert (Hrender : renderThrows (activeSection c0) data = false).
      { cbn [c0 runAutosaveEffect firstRender activeSection renderThrows].
        destruct (personalInfo data !! "summary"); [reflexivity|congruence]. }
      destruct (setResumeData_renders data c0 eq_refl Hrender)
        as (Htimer & Hmounted & Hstore & Hcalls & _ & Hnow).
      split; [exact Hmounted|]. split; [exact Htimer|].
      intros HT Hacc.
      set (c1 := addToast (ToastSuccess "Previous data loaded")
                   (setResumeData data c0)).
      assert (Htimer1 : autosaveTimer c1
                        = Some {| due := t + 2000; captured := data |})
        by exact Htimer.
      assert (Hstore1 : localStorage c1 = store) by exact Hstore.
      assert (Hcalls1 : setItemCalls c1 = []) by exact Hcalls.
      assert (Hnow1 : now c1 = t) by exact Hnow.
      destruct (advance_saves T c1 _ Htimer1 HT) as (Hitems & _).
      { rewrite Hstore1. apply Hacc. }
      destruct (advance_fires T c1 _ Htimer1 HT) as (_ & _ & Hwritten).
      clearbody c1. cbn [due captured] in Hitems, Hwritten.
      rewrite Hcalls1, Hnow1 in Hwritten.
      replace (Z.max (t + 2000) t) with (t + 2000) in Hwritten by lia.
      exists (textOf data). split; [exact Hwritten|].
      split; [|apply textHolds_textOf].
      unfold getItem. rewrite Hitems. apply lookup_insert_eq.
    + intros Hsummary.
      assert (Hrender : renderThrows (activeSection c0) data = true).
      { cbn [c0 runAutosaveEffect firstRender activeSection renderThrows].
        rewrite Hsummary. reflexivity. }
      destruct (setResumeData_throws data c0 Hrender)
        as (Htimer & Hmounted & Hstore & Hcalls & _).
      split; [exact Hmounted|]. split; [exact Htimer|].
      unfold advance. cbn [addToast autosaveTimer]. rewrite Htimer.
      cbn [setClock fireSavingTimers setItemCalls localStorage addToast].
      rewrite Hcalls, Hstore. split; reflexivity.
Qed.

Lemma first_render_loads_and_arms_autosave_witness :
  exists c text,
    mount emptyStorage 0 = LoadedState c /\
    getItem storageKey (localStorage (advance 2000 c)) = Some text /\
    textHolds text initialResumeData.
Proof.
  destruct (proj1 first_render_loads_and_arms_autosave emptyStorage 0 2000 eq_refl)
    as (c & Hmount & _ & _ & _ & _ & Hsaved).
  destruct Hsaved as (text & Hget & Hholds);
    [lia | intros its k v; reflexivity |].
  exists c, text. split; [exact Hmount|]. split; [exact Hget | exact Hholds].
Defined.

(** ** The manual save and the saving indicator *)

Lemma saveToLocalStorage_frame data c :
  autosaveTimer (saveToLocalStorage data c) = autosaveTimer c /\
  now (saveToLocalStorage data c) = now c /\
  resumeData (saveToLocalStorage data c) = resumeData c /\
  setItemCalls (saveToLocalStorage data c)
    = setItemCalls c ++ [(now c, storageKey, textOf data)].
Proof.
  unfold saveToLocalStorage. fold (textOf data).
  destruct (setItem storageKey (textOf data) (localStorage c)); repeat split.
Qed.

(** X14: the "Save Progress" button does not cancel the debounced save:
    a save that is pending when the button is pressed stays pending and
    still runs at its due time, so the store is written twice, first with
    the record of the current render, then with the record the timer
    carries. *)
Theorem manual_save_keeps_pending_autosave :
  forall c timer T,
    autosaveTimer c = Some timer -> now c <= due timer -> due timer <= T ->
    autosaveTimer (saveNow c) = Some timer /\
    setItemCalls (advance T (saveNow c))
      = setItemCalls c ++
          [(now c, storageKey, textOf (resumeData c));
           (due timer, storageKey, textOf (captured timer))].
Proof.
  intros c timer T Htimer Hnow HT. unfold saveNow.
  destruct (saveToLocalStorage_frame (resumeData c) c) as (Ha & Hn & _ & Hc).
  rewrite Htimer in Ha. split; [exact Ha|].
  destruct (advance_fires T _ timer Ha HT) as (_ & _ & ->).
  rewrite Hc, Hn, <- app_assoc. fold (textOf (captured timer)).
  replace (Z.max (due timer) (now c)) with (due timer) by lia. reflexivity.
Qed.

Lemma manual_save_keeps_pending_autosave_witness :
  let c := advance 1000 (change (handlePersonalInfoChange "name" "Ada")
                           (firstRender emptyStorage 0)) in
  setItemCalls (advance 2000 (saveNow c))
    = [(1000, storageKey, textOf (handlePersonalInfoChange "name" "Ada" initialResumeData));
       (2000, storageKey, textOf (handlePersonalInfoChange "name" "Ada" initialResumeData))].
Proof.
  intros c.
  apply (manual_save_keeps_pending_autosave c
           {| due := 2000;
              captured := handlePersonalInfoChange "name" "Ada" initialResumeData |}
           2000 eq_refl); cbn [c due]; [vm_compute; discriminate | lia].
Defined.

(** X15: after a save that the store accepted, with no other timer around,
    the saving indicator is on for 500 and off from then on, and [lastSaved]
    is the time of the save.  A timer left by an earlier save switches the
    indicator off as soon as it is due, also before the 500 are over. *)
Theorem saving_indicator_lasts_500 :
  forall data c store T,
    setItem storageKey (textOf data) (localStorage c) = Some store ->
    (forall timer, autosaveTimer c = Some timer -> T < due timer) ->
    let c' := advance T (saveToLocalStorage data c) in
    lastSaved c' = Some (now c) /\
    (savingTimers c = [] -> isSaving c' = (T <? now c + 500)) /\
    (forall d, d ∈ savingTimers c -> d <= T -> isSaving c' = false).
Proof.
  intros data c store T Hset Hquiet c'. subst c'.
  unfold advance, saveToLocalStorage. fold (textOf data). rewrite Hset.
  cbn [autosaveTimer].
  assert (Hbranch :
            match autosaveTimer c with
            | Some timer => due timer <=? T
            | None => false
            end = false).
  { destruct (autosaveTimer c) as [timer|]; [|reflexivity].
    apply Z.leb_gt, Hquiet. reflexivity. }
  destruct (autosaveTimer c) as [timer|];
    [rewrite Hbranch|];
    cbn [fireSavingTimers setClock lastSaved isSaving savingTimers];
    (split; [reflexivity|]); split.
  all: try (intros ->; cbn [app existsb orb];
            destruct (Z.leb_spec (now c + 500) T), (Z.ltb_spec T (now c + 500));
            (reflexivity || lia)).
  all: intros d Hd HdT;
    replace (existsb (fun d0 => d0 <=? T) (savingTimers c ++ [now c + 500])) with true;
    [reflexivity|];
    symmetry; apply existsb_exists; exists d; split;
    [apply list_elem_of_In, elem_of_app; left; exact Hd | apply Z.leb_le, HdT].
Qed.

Lemma saving_indicator_lasts_500_witness :
  isSaving (advance 499 (saveToLocalStorage sampleFullRecord (firstRender emptyStorage 0)))
    = true /\
  isSaving (advance 500 (saveToLocalStorage sampleFullRecord (firstRender emptyStorage 0)))
    = false.
Proof.
  split.
  - destruct (saving_indicator_lasts_500 sampleFullRecord
                (firstRender emptyStorage 0)
                {| items := {[ storageKey := textOf sampleFullRecord ]};
                   accepts := fun _ _ _ => true |} 499) as (_ & Hon & _);
      [unfold setItem; cbn; rewrite insert_empty; reflexivity | discriminate|].
    rewrite Hon; reflexivity.
  - destruct (saving_indicator_lasts_500 sampleFullRecord
                (firstRender emptyStorage 0)
                {| items := {[ storageKey := textOf sampleFullRecord ]};
                   accepts := fun _ _ _ => true |} 500) as (_ & Hon & _);
      [unfold setItem; cbn; rewrite insert_empty; reflexivity | discriminate|].
    rewrite Hon; reflexivity.
Defined.
